(** * postgres-db-interaction: the query executor, the table manager, the
      populator, the mutators, the queriers and the tabular printer of
      [src/homework/main.py], and the maintenance entry point of
      [src/homework/clear_tables.py].

    The Python code is embedded as functions of a state-and-exception monad
    over a [world]: the process' standard output, its psycopg2 connection
    and cursor objects, the module-level Faker generator, the environment
    variables and the PostgreSQL server at the other end of the
    connection.  The executor ([QueryExecutor]) is embedded once, for any
    type of statements and any server; the classes built on it are embedded
    over a model of the thirteen SQL statements the program sends. *)

From Stdlib Require Import ZArith String Ascii Bool Lia QArith DecimalString
  DecimalPos DecimalZ List
  Sorted Permutation.
Import ListNotations.
Open Scope string_scope.
Open Scope list_scope.
Open Scope Z_scope.

(** ** Python values and exceptions *)

(** The double quote character, for the messages that quote a name. *)
Definition dq : string := String (ascii_of_nat 34) EmptyString.

(** An f-string: its pieces, concatenated. *)
Definition fstring (parts : list string) : string :=
  String.concat EmptyString parts.

(** [str(n)] of a Python int. *)
Definition str_int (n : Z) : string := NilZero.string_of_int (Z.to_int n).

(** [sub] occurs in [s]. *)
Definition contains (s sub : string) : Prop :=
  exists before after, s = String.append before (String.append sub after).

(** The exception classes met by the program: psycopg2's DB-API classes (a
    server error such as [UniqueViolation] is an instance of one of them),
    the [ValueError] of prettytable and of a format, and the [IndexError]
    of a subscript. *)
Inductive exn_class : Type :=
| InterfaceError
| DataError
| OperationalError
| IntegrityError
| InternalError
| ProgrammingError
| NotSupportedError
| ValueError
| IndexError.

(** An exception object: its class and [str(e)]. *)
Inductive exn : Type := Exn (cls : exn_class) (msg : string).

Definition exn_cls (e : exn) : exn_class := let 'Exn c _ := e in c.
Definition exn_msg (e : exn) : string := let 'Exn _ m := e in m.

(** [except (OperationalError, ProgrammingError, IntegrityError)]. *)
Definition db_error (e : exn) : bool :=
  match exn_cls e with
  | OperationalError | ProgrammingError | IntegrityError => true
  | _ => false
  end.

(** [except ValueError]. *)
Definition value_error (e : exn) : bool :=
  match exn_cls e with ValueError => true | _ => false end.

(** What a call does: it returns or it raises. *)
Inductive outcome (A : Type) : Type :=
| Ret (a : A)
| Raise (e : exn).
Arguments Ret {A} a.
Arguments Raise {A} e.

(** One call after another: the first exception ends the sequence. *)
Definition and_then {A B : Type} (o : outcome A) (f : A -> outcome B) : outcome B :=
  match o with
  | Ret a => f a
  | Raise e => Raise e
  end.
Notation "o >>= f" := (and_then o f) (at level 50, left associativity).

(** The values of a result row or of a parameter tuple. *)
Inductive value : Type :=
| VNull
| VInt (n : Z)
| VText (s : string)
| VDate (ordinal : Z)
| VUuid (u : Z)
| VNumeric (q : Q).

Definition row : Type := list value.

(** ** The psycopg2 side: connection, cursors, the server behind them *)

(** The answer of the server to a statement: the affected-row count and,
    for a statement that returns rows, the result set. *)
Record result : Type := Result {
  res_rowcount : Z;
  res_rows : option (list row)
}.

(** A cursor object. *)
Record cursor : Type := Cursor {
  cur_closed : bool;
  rowcount : Z;
  cur_rows : option (list row)      (* rows not fetched yet *)
}.

Definition new_cursor : cursor := Cursor false (-1) None.

Inductive connection_status : Type := NotConnected | Open | Closed.

(** [l[i] = x], nothing out of range. *)
Fixpoint list_set {A : Type} (i : nat) (x : A) (l : list A) : list A :=
  match l, i with
  | [], _ => []
  | _ :: l', O => x :: l'
  | y :: l', S i' => y :: list_set i' x l'
  end.

Section Executor.

(** The statements ([str | sql.SQL | sql.Composed]), their parameter
    tuples and the server are those of the caller. *)
Context {query params server : Type}.

(** [run q ps s]: the server in state [s] executes [q] with [ps]. *)
Variable run : query -> option params -> server -> outcome result * server.

Record world : Type := World {
  backend : server;
  stdout : list string;               (* the lines printed so far *)
  cursors : list cursor;              (* the cursor objects, by handle *)
  connection : connection_status;
  autocommit : bool;
  issued : list (query * option params);  (* the statements sent, in order *)
  environ : list (string * string);
  connect_error : option exn;         (* what [connect] would raise *)
  faker_seed : Z                      (* the state of [faker] *)
}.

Definition set_backend (s : server) (w : world) : world :=
  World s (stdout w) (cursors w) (connection w) (autocommit w) (issued w)
        (environ w) (connect_error w) (faker_seed w).
Definition set_stdout (o : list string) (w : world) : world :=
  World (backend w) o (cursors w) (connection w) (autocommit w) (issued w)
        (environ w) (connect_error w) (faker_seed w).
Definition set_cursors (cs : list cursor) (w : world) : world :=
  World (backend w) (stdout w) cs (connection w) (autocommit w) (issued w)
        (environ w) (connect_error w) (faker_seed w).
Definition set_connection (c : connection_status) (w : world) : world :=
  World (backend w) (stdout w) (cursors w) c (autocommit w) (issued w)
        (environ w) (connect_error w) (faker_seed w).
Definition set_autocommit (b : bool) (w : world) : world :=
  World (backend w) (stdout w) (cursors w) (connection w) b (issued w)
        (environ w) (connect_error w) (faker_seed w).
Definition set_issued (l : list (query * option params)) (w : world) : world :=
  World (backend w) (stdout w) (cursors w) (connection w) (autocommit w) l
        (environ w) (connect_error w) (faker_seed w).
Definition set_faker_seed (z : Z) (w : world) : world :=
  World (backend w) (stdout w) (cursors w) (connection w) (autocommit w)
        (issued w) (environ w) (connect_error w) z.

(** *** The monad of the embedding: a call transforms the world and
    returns or raises; what it printed before raising stays printed. *)
Definition M (A : Type) : Type := world -> outcome A * world.

Definition ret {A : Type} (a : A) : M A := fun w => (Ret a, w).

Definition raise {A : Type} (e : exn) : M A := fun w => (Raise e, w).

Definition bind {A B : Type} (m : M A) (k : A -> M B) : M B :=
  fun w =>
    match m w with
    | (Ret a, w1) => k a w1
    | (Raise e, w1) => (Raise e, w1)
    end.

(** [try: body / except catches as e: handler e]. *)
Definition try_except {A : Type}
    (body : M A) (catches : exn -> bool) (handler : exn -> M A) : M A :=
  fun w =>
    match body w with
    | (Raise e, w1) => if catches e then handler e w1 else (Raise e, w1)
    | r => r
    end.

(** [try: body / finally: cleanup], for a cleanup that does not raise. *)
Definition try_finally {A : Type} (body : M A) (cleanup : M unit) : M A :=
  fun w => let (r, w1) := body w in (r, snd (cleanup w1)).

Definition when (b : bool) (m : M unit) : M unit :=
  if b then m else ret tt.

Definition print (line : string) : M unit :=
  fun w => (Ret tt, set_stdout (stdout w ++ [line]) w).

(** *** psycopg2 *)

(** [connection.cursor()]: a new cursor object, on an open connection. *)
Definition connection_cursor : M nat :=
  fun w =>
    match connection w with
    | Open => (Ret (length (cursors w)),
               set_cursors (cursors w ++ [new_cursor]) w)
    | _ => (Raise (Exn InterfaceError "connection already closed"), w)
    end.

(** [cursor.close()]. *)
Definition cursor_close (c : nat) : M unit :=
  fun w =>
    match nth_error (cursors w) c with
    | Some cur =>
        (Ret tt,
         set_cursors (list_set c (Cursor true (rowcount cur) (cur_rows cur))
                               (cursors w)) w)
    | None => (Ret tt, w)
    end.

(** [cursor.execute(query, query_params)]: the statement goes to the
    server; its answer is kept in the cursor, its error is raised. *)
Definition cursor_execute (c : nat) (q : query) (ps : option params) : M unit :=
  fun w =>
    match nth_error (cursors w) c with
    | None => (Raise (Exn InterfaceError "cursor already closed"), w)
    | Some cur =>
        if cur_closed cur then
          (Raise (Exn InterfaceError "cursor already closed"), w)
        else
          match connection w with
          | Open =>
              let (o, s) := run q ps (backend w) in
              let w1 := set_issued (issued w ++ [(q, ps)]) (set_backend s w) in
              match o with
              | Ret r =>
                  (Ret tt,
                   set_cursors
                     (list_set c (Cursor false (res_rowcount r) (res_rows r))
                               (cursors w1)) w1)
              | Raise e => (Raise e, w1)
              end
          | _ => (Raise (Exn InterfaceError "connection already closed"), w)
          end
    end.

(** [cursor.rowcount]. *)
Definition cursor_rowcount (c : nat) : M Z :=
  fun w =>
    (Ret (match nth_error (cursors w) c with
          | Some cur => rowcount cur
          | None => -1
          end), w).

Definition no_results : exn := Exn ProgrammingError "no results to fetch".

(** [cursor.fetchall()]: the rows not fetched yet. *)
Definition cursor_fetchall (c : nat) : M (list row) :=
  fun w =>
    match nth_error (cursors w) c with
    | Some (Cursor false n (Some rows)) =>
        (Ret rows, set_cursors (list_set c (Cursor false n (Some [])) (cursors w)) w)
    | Some (Cursor false _ None) => (Raise no_results, w)
    | _ => (Raise (Exn InterfaceError "cursor already closed"), w)
    end.

(** [cursor.fetchone()]: the next row, [None] when there is none left. *)
Definition cursor_fetchone (c : nat) : M (option row) :=
  fun w =>
    match nth_error (cursors w) c with
    | Some (Cursor false n (Some (r :: rows))) =>
        (Ret (Some r),
         set_cursors (list_set c (Cursor false n (Some rows)) (cursors w)) w)
    | Some (Cursor false n (Some [])) => (Ret None, w)
    | Some (Cursor false _ None) => (Raise no_results, w)
    | _ => (Raise (Exn InterfaceError "cursor already closed"), w)
    end.

(** [connection.close()]. *)
Definition connection_close : M unit :=
  fun w => (Ret tt, set_connection Closed w).

(** [with self.connection.cursor() as cursor: body cursor]: the cursor is
    closed when the block is left, by return or by exception. *)
Definition with_cursor {A : Type} (body : nat -> M A) : M A :=
  bind connection_cursor (fun c => try_finally (body c) (cursor_close c)).

(** [connect(database=..., user=..., ...)]. *)
Definition connect : M unit :=
  fun w =>
    match connect_error w with
    | Some e => (Raise e, w)
    | None => (Ret tt, set_connection Open w)
    end.

(** [environ.get(name)]. *)
Fixpoint assoc (name : string) (l : list (string * string)) : option string :=
  match l with
  | [] => None
  | (k, v) :: l' => if String.eqb k name then Some v else assoc name l'
  end.

Definition environ_get (name : string) : M (option string) :=
  fun w => (Ret (assoc name (environ w)), w).

(** *** main.py: create_connection *)

Definition is_None {A : Type} (x : option A) : bool :=
  match x with None => true | Some _ => false end.

(** The connection object is the one of the world: [Some tt] stands for
    it, [None] for Python's [None]. *)
Definition create_connection
    (db_name db_user db_password db_host db_port : option string)
    : M (option unit) :=
  if existsb is_None [db_name; db_user; db_password; db_host; db_port] then
    ret None
  else
    try_except
      (bind connect (fun _ =>
       bind (print "Connection to PostgreSQL DB successful!") (fun _ =>
       ret (Some tt))))
      (fun e => match exn_cls e with
                | OperationalError | ProgrammingError => true
                | _ => false
                end)
      (fun e =>
         bind (print (fstring ["Failed to create connection: error "; dq;
                               exn_msg e; dq; " occurred."])) (fun _ =>
         ret None)).

(** *** main.py: QueryExecutor *)

Definition success_message (query_name : string) : string :=
  fstring ["Query "; dq; query_name; dq; " executed successfully!"].

Definition failure_message (query_name : string) (e : exn) : string :=
  fstring ["Failed to "; query_name; ": error "; dq; exn_msg e; dq;
           " occurred."].

Definition execute_query
    (query_ : query) (query_name : string) (query_params : option params)
    (raise_exc print_success : bool) : M unit :=
  try_except
    (with_cursor (fun cursor =>
       bind (cursor_execute cursor query_ query_params) (fun _ =>
       when print_success (print (success_message query_name)))))
    db_error
    (fun e =>
       bind (print (failure_message query_name e)) (fun _ =>
       if raise_exc then raise e else ret tt)).

(** The local variable [cursor] is [None] until [connection.cursor()] has
    returned; the handler sees the value it has when the exception is
    raised. *)
Definition execute_query_return_cursor
    (query_ : query) (query_name : string) (query_params : option params)
    (raise_exc print_success : bool) : M (option nat) :=
  let except (cursor : option nat) (e : exn) : M (option nat) :=
    if db_error e then
      bind (print (failure_message query_name e)) (fun _ =>
      if raise_exc then
        bind (match cursor with
              | Some c => cursor_close c
              | None => ret tt
              end) (fun _ =>
        raise e)
      else ret None)
    else raise e in
  fun w =>
    match connection_cursor w with
    | (Raise e, w1) => except None e w1
    | (Ret c, w1) =>
        match bind (cursor_execute c query_ query_params) (fun _ =>
              when print_success (print (success_message query_name))) w1 with
        | (Raise e, w2) => except (Some c) e w2
        | (Ret _, w2) => (Ret (Some c), w2)
        end
    end.

End Executor.

Arguments world : clear implicits.
Arguments M : clear implicits.

(** ** The PostgreSQL side: the two tables and the statements of the program *)

(** A row of [students]: id SERIAL PRIMARY KEY, name TEXT, birth_date DATE,
    group INTEGER, all NOT NULL. *)
Record student : Type := Student {
  st_id : Z;
  st_name : string;
  st_birth_date : Z;
  st_group : Z
}.

(** A row of [scores]: id UUID PRIMARY KEY DEFAULT gen_random_uuid(),
    student_id INT REFERENCES students(id) ON DELETE CASCADE, score INTEGER. *)
Record score : Type := Score {
  sc_id : Z;
  sc_student_id : Z;
  sc_score : Z
}.

(** The database: a table is [None] until it is created.  The rows of a
    table are kept in the order in which a statement without ORDER BY
    reads them.  For a table that fits a page, as those of the program
    do, it is the order in which the rows were written: an INSERT writes
    its row after the others, and so does an UPDATE, for which the new
    version of a row is a new row and the old one is gone.  Where an
    UPDATE leaves a row in a larger table is not modelled, and the
    properties of the updates are stated up to the order of the rows. *)
Record database : Type := Database {
  students : option (list student);
  scores : option (list score);
  students_id_seq : Z;          (* the next value of the SERIAL sequence *)
  uuid_source : Z               (* the next token of gen_random_uuid() *)
}.

(** The statements sent by the program, named after their text; the
    [%s] placeholders are filled from the parameter tuple. *)
Inductive sql : Type :=
| CREATE_TABLE_students      (* CREATE TABLE IF NOT EXISTS students (...) *)
| CREATE_TABLE_scores        (* CREATE TABLE IF NOT EXISTS scores (...) *)
| INSERT_INTO_students       (* INSERT INTO students (name, birth_date, group) VALUES (%s, %s, %s) *)
| SELECT_id_FROM_students    (* SELECT id FROM students *)
| INSERT_INTO_scores         (* INSERT INTO scores (student_id, score) VALUES (%s, %s) *)
| UPDATE_students_SET_group  (* UPDATE students SET group = %s WHERE id = %s *)
| DELETE_FROM_students       (* DELETE FROM students WHERE group = %s *)
| SELECT_FROM_students_WHERE_group
                             (* SELECT id, name, birth_date FROM students WHERE group = %s LIMIT %s *)
| SELECT_AVG_score           (* SELECT AVG(scores.score) FROM students JOIN scores
                                ON students.id = scores.student_id WHERE students.group = %s *)
| SELECT_ORDER_BY (table column : string)
                             (* SELECT * FROM {table} ORDER BY {column} LIMIT %s *)
| SELECT_FROM_students_WHERE_name_ILIKE
                             (* SELECT id, name, birth_date, group FROM students WHERE name ILIKE %s *)
| UPDATE_scores_SET_score    (* UPDATE scores SET score = %s WHERE student_id = %s *)
| TRUNCATE_students.         (* TRUNCATE TABLE students RESTART IDENTITY CASCADE *)

(** The range of INTEGER and of a SERIAL sequence. *)
Definition int4 (n : Z) : bool := (-2147483648 <=? n) && (n <=? 2147483647).

Definition undefined_table (table : string) : exn :=
  Exn ProgrammingError (fstring ["relation "; dq; table; dq; " does not exist"]).
Definition undefined_column (column : string) : exn :=
  Exn ProgrammingError (fstring ["column "; dq; column; dq; " does not exist"]).
Definition out_of_range : exn := Exn DataError "integer out of range".
Definition unique_violation (constraint : string) : exn :=
  Exn IntegrityError
      (fstring ["duplicate key value violates unique constraint "; dq; constraint; dq]).
Definition foreign_key_violation : exn :=
  Exn IntegrityError
      "insert or update on table scores violates foreign key constraint scores_student_id_fkey".
Definition negative_limit : exn := Exn DataError "LIMIT must not be negative".
(** A parameter tuple that does not fit the placeholders of the statement;
    no call of the program builds one. *)
Definition bad_parameters : exn := Exn ProgrammingError "parameters do not fit the statement".

(** [SELECT *]: the columns of a row, in the order of the table. *)
Definition student_row (s : student) : row :=
  [VInt (st_id s); VText (st_name s); VDate (st_birth_date s); VInt (st_group s)].
Definition score_row (s : score) : row :=
  [VUuid (sc_id s); VInt (sc_student_id s); VInt (sc_score s)].

Definition students_of (db : database) : list student :=
  match students db with Some l => l | None => [] end.

(** *** ILIKE: [%] is any run of characters, [_] any one character, a
    backslash makes the next character literal; letters match whatever
    their case.  [lower] folds the letters A-Z, which is what the usual
    character types of a database (C, POSIX, en_US, ...) do to ASCII text;
    which other letters are folded depends on the character type the
    database was created with, and text with such letters is outside the
    model: the properties of the search are stated for ASCII text. *)
Definition lower (c : ascii) : ascii :=
  let n := nat_of_ascii c in
  if ((65 <=? n) && (n <=? 90))%nat then ascii_of_nat (n + 32) else c.

Definition is_char (n : nat) (c : ascii) : bool := Nat.eqb (nat_of_ascii c) n.

Fixpoint ilike (pattern : list ascii) : list ascii -> bool :=
  match pattern with
  | [] => fun s => match s with [] => true | _ => false end
  | p :: pattern' =>
      if is_char 37 p then                         (* % *)
        fix any (s : list ascii) : bool :=
          ilike pattern' s
          || match s with [] => false | _ :: s' => any s' end
      else if is_char 95 p then                    (* _ *)
        fun s => match s with [] => false | _ :: s' => ilike pattern' s' end
      else if is_char 92 p then                    (* backslash *)
        match pattern' with
        | [] => fun _ => false
        | q :: pattern'' =>
            fun s => match s with
                     | [] => false
                     | c :: s' => Ascii.eqb (lower q) (lower c) && ilike pattern'' s'
                     end
        end
      else
        fun s => match s with
                 | [] => false
                 | c :: s' => Ascii.eqb (lower p) (lower c) && ilike pattern' s'
                 end
  end.

Definition name_ilike (pattern name : string) : bool :=
  ilike (list_ascii_of_string pattern) (list_ascii_of_string name).

(** *** ORDER BY column: ascending; rows with equal keys keep their order. *)
Definition value_leb (a b : value) : bool :=
  match a, b with
  | VInt x, VInt y => x <=? y
  | VDate x, VDate y => x <=? y
  | VUuid x, VUuid y => x <=? y
  | VText x, VText y => String.leb x y
  | _, _ => true
  end.

Fixpoint insert_sorted (column : nat) (r : row) (l : list row) : list row :=
  match l with
  | [] => [r]
  | r' :: l' =>
      if value_leb (nth column r VNull) (nth column r' VNull) then r :: l
      else r' :: insert_sorted column r l'
  end.

Definition order_by (column : nat) (l : list row) : list row :=
  fold_right (insert_sorted column) [] l.

Fixpoint index_of (x : string) (l : list string) : option nat :=
  match l with
  | [] => None
  | y :: l' => if String.eqb y x then Some O
               else match index_of x l' with Some i => Some (S i) | None => None end
  end.

(** The rows and the column names of the table called [table]: the two
    tables of the program, under the names and the columns they are
    declared with (the statement quotes both names).  A database has
    relations of its own besides (the sequence of the SERIAL column, the
    catalogs) and every table has system columns; these are outside the
    model, which answers them like a name that the database has not, and
    no property is stated for them. *)
Definition table_rows (db : database) (table : string)
    : option (list row * list string) :=
  if String.eqb table "students" then
    match students db with
    | Some l => Some (map student_row l, ["id"; "name"; "birth_date"; "group"])
    | None => None
    end
  else if String.eqb table "scores" then
    match scores db with
    | Some l => Some (map score_row l, ["id"; "student_id"; "score"])
    | None => None
    end
  else None.

(** *** AVG over the join of students and scores *)
Definition group_scores (db : database) (group : Z) : list Z :=
  flat_map (fun st =>
              map sc_score
                  (filter (fun sc => sc_student_id sc =? st_id st)
                          (match scores db with Some l => l | None => [] end)))
           (filter (fun st => st_group st =? group) (students_of db)).

Definition sum_Z (l : list Z) : Z := fold_right Z.add 0 l.

Definition avg (l : list Z) : value :=
  match l with
  | [] => VNull
  | _ :: _ => VNumeric (sum_Z l # Pos.of_nat (length l))
  end.

(** *** The statements, executed *)

Definition ddl_done : result := Result (-1) None.
Definition selected (rows : list row) : result :=
  Result (Z.of_nat (length rows)) (Some rows).
Definition changed (n : nat) : result := Result (Z.of_nat n) None.

Definition set_students (l : list student) (db : database) : database :=
  Database (Some l) (scores db) (students_id_seq db) (uuid_source db).
Definition set_scores (l : list score) (db : database) : database :=
  Database (students db) (Some l) (students_id_seq db) (uuid_source db).

Definition create_students (db : database) : outcome result * database :=
  match students db with
  | Some _ => (Ret ddl_done, db)                       (* IF NOT EXISTS *)
  | None => (Ret ddl_done, Database (Some []) (scores db) 1 (uuid_source db))
  end.

Definition create_scores (db : database) : outcome result * database :=
  match scores db with
  | Some _ => (Ret ddl_done, db)                       (* IF NOT EXISTS *)
  | None =>
      match students db with
      | Some _ => (Ret ddl_done, set_scores [] db)
      | None => (Raise (undefined_table "students"), db)
      end
  end.

Definition insert_student (n : string) (d g : Z) (db : database)
    : outcome result * database :=
  match students db with
  | None => (Raise (undefined_table "students"), db)
  | Some l =>
      let id := students_id_seq db in
      if negb (int4 g && int4 id) then (Raise out_of_range, db)
      else
        let db1 := Database (students db) (scores db) (id + 1) (uuid_source db) in
        if existsb (fun s => st_id s =? id) l then
          (Raise (unique_violation "students_pkey"), db1)
        else (Ret (changed 1), set_students (l ++ [Student id n d g]) db1)
  end.

Definition select_ids (db : database) : outcome result * database :=
  match students db with
  | None => (Raise (undefined_table "students"), db)
  | Some l => (Ret (selected (map (fun s => [VInt (st_id s)]) l)), db)
  end.

Definition insert_score (sid sc : Z) (db : database) : outcome result * database :=
  match scores db with
  | None => (Raise (undefined_table "scores"), db)
  | Some l =>
      if negb (int4 sid && int4 sc) then (Raise out_of_range, db)
      else
        let u := uuid_source db in
        let db1 := Database (students db) (scores db) (students_id_seq db) (u + 1) in
        if existsb (fun s => sc_id s =? u) l then
          (Raise (unique_violation "scores_pkey"), db1)
        else if existsb (fun s => st_id s =? sid) (students_of db) then
          (Ret (changed 1), set_scores (l ++ [Score u sid sc]) db1)
        else (Raise foreign_key_violation, db1)
  end.

Definition update_students_group (g id : Z) (db : database)
    : outcome result * database :=
  match students db with
  | None => (Raise (undefined_table "students"), db)
  | Some l =>
      if negb (int4 g) then (Raise out_of_range, db)
      else
        let updated := filter (fun s => st_id s =? id) l in
        let others := filter (fun s => negb (st_id s =? id)) l in
        (Ret (changed (length updated)),
         set_students
           (others ++
            map (fun s => Student (st_id s) (st_name s) (st_birth_date s) g) updated)
           db)
  end.

(** ON DELETE CASCADE: the scores of a deleted student go with it. *)
Definition delete_students (g : Z) (db : database) : outcome result * database :=
  match students db with
  | None => (Raise (undefined_table "students"), db)
  | Some l =>
      let deleted := filter (fun s => st_group s =? g) l in
      let kept := filter (fun s => negb (st_group s =? g)) l in
      (Ret (changed (length deleted)),
       Database (Some kept)
                (option_map
                   (filter (fun sc =>
                      negb (existsb (fun s => st_id s =? sc_student_id sc) deleted)))
                   (scores db))
                (students_id_seq db) (uuid_source db))
  end.

Definition select_group (g limit : Z) (db : database) : outcome result * database :=
  match students db with
  | None => (Raise (undefined_table "students"), db)
  | Some l =>
      if limit <? 0 then (Raise negative_limit, db)
      else
        (Ret (selected
                (firstn (Z.to_nat limit)
                   (map (fun s => [VInt (st_id s); VText (st_name s);
                                   VDate (st_birth_date s)])
                        (filter (fun s => st_group s =? g) l)))), db)
  end.

(** An aggregate without GROUP BY answers one row, NULL for no input. *)
Definition select_avg (g : Z) (db : database) : outcome result * database :=
  match students db, scores db with
  | None, _ => (Raise (undefined_table "students"), db)
  | _, None => (Raise (undefined_table "scores"), db)
  | Some _, Some _ => (Ret (selected [[avg (group_scores db g)]]), db)
  end.

Definition select_order_by (table column : string) (limit : Z) (db : database)
    : outcome result * database :=
  match table_rows db table with
  | None => (Raise (undefined_table table), db)
  | Some (rows, columns) =>
      match index_of column columns with
      | None => (Raise (undefined_column column), db)
      | Some i =>
          if limit <? 0 then (Raise negative_limit, db)
          else (Ret (selected (firstn (Z.to_nat limit) (order_by i rows))), db)
      end
  end.

Definition select_ilike (pattern : string) (db : database)
    : outcome result * database :=
  match students db with
  | None => (Raise (undefined_table "students"), db)
  | Some l =>
      (Ret (selected (map student_row
                          (filter (fun s => name_ilike pattern (st_name s)) l))), db)
  end.

Definition update_scores_score (sc sid : Z) (db : database)
    : outcome result * database :=
  match scores db with
  | None => (Raise (undefined_table "scores"), db)
  | Some l =>
      if negb (int4 sc) then (Raise out_of_range, db)
      else
        let updated := filter (fun s => sc_student_id s =? sid) l in
        let others := filter (fun s => negb (sc_student_id s =? sid)) l in
        (Ret (changed (length updated)),
         set_scores
           (others ++ map (fun s => Score (sc_id s) (sc_student_id s) sc) updated)
           db)
  end.

(** CASCADE empties the tables that reference [students]; RESTART IDENTITY
    restarts the sequence of its id. *)
Definition truncate_students (db : database) : outcome result * database :=
  match students db with
  | None => (Raise (undefined_table "students"), db)
  | Some _ =>
      (Ret ddl_done,
       Database (Some []) (option_map (fun _ => []) (scores db)) 1 (uuid_source db))
  end.

Definition pg_statement (q : sql) (ps : option (list value)) (db : database)
    : outcome result * database :=
  match q, ps with
  | CREATE_TABLE_students, None => create_students db
  | CREATE_TABLE_scores, None => create_scores db
  | INSERT_INTO_students, Some [VText n; VDate d; VInt g] => insert_student n d g db
  | SELECT_id_FROM_students, None => select_ids db
  | INSERT_INTO_scores, Some [VInt sid; VInt sc] => insert_score sid sc db
  | UPDATE_students_SET_group, Some [VInt g; VInt id] => update_students_group g id db
  | DELETE_FROM_students, Some [VInt g] => delete_students g db
  | SELECT_FROM_students_WHERE_group, Some [VInt g; VInt limit] => select_group g limit db
  | SELECT_AVG_score, Some [VInt g] => select_avg g db
  | SELECT_ORDER_BY table column, Some [VInt limit] =>
      select_order_by table column limit db
  | SELECT_FROM_students_WHERE_name_ILIKE, Some [VText pattern] => select_ilike pattern db
  | UPDATE_scores_SET_score, Some [VInt sc; VInt sid] => update_scores_score sc sid db
  | TRUNCATE_students, None => truncate_students db
  | _, _ => (Raise bad_parameters, db)
  end.

(** The server as the client sees it: the database, and what goes wrong on
    the way to it.  [faults] says, for each of the next statements, whether
    it fails before it reaches the database (a lost connection, a
    cancelled statement, ...) and with which exception. *)
Record pg_server : Type := Server {
  tables : database;
  faults : list (option exn)
}.

Definition pg_run (q : sql) (ps : option (list value)) (s : pg_server)
    : outcome result * pg_server :=
  match faults s with
  | Some e :: fs => (Raise e, Server (tables s) fs)
  | fs =>
      let (o, db) := pg_statement q ps (tables s) in
      (o, Server db (tl fs))
  end.

Definition pg_world : Type := world sql (list value) pg_server.
Definition PG (A : Type) : Type := M sql (list value) pg_server A.

Declare Scope pg_scope.
Delimit Scope pg_scope with pg.
Notation "x <- m1 ;; m2" := (bind m1 (fun x => m2))
  (at level 100, m1 at next level, right associativity) : pg_scope.
Notation "m1 ;; m2" := (bind m1 (fun _ => m2))
  (at level 100, right associativity) : pg_scope.
Open Scope pg_scope.

(** ** main.py over PostgreSQL *)

Definition ROW_LIMIT : Z := 30.

(** *** faker = Faker(), seeded with SEED = 1.  The generator of the
    library is replaced by a linear congruential one: the program depends
    on the draws only through the tuples it inserts, and on [random_int]
    staying within its bounds. *)
Definition SEED : Z := 1.

Definition faker_next (seed : Z) : Z := (seed * 1103515245 + 12345) mod 2147483648.

Definition faker_draw : PG Z :=
  fun w => let s := faker_next (faker_seed w) in (Ret s, set_faker_seed s w).

Definition faker_name : PG string :=
  s <- faker_draw ;; ret (fstring ["Student "; str_int s]).

Definition faker_date_of_birth : PG Z :=
  s <- faker_draw ;; ret (693596 + s mod 42000).

Definition faker_random_int (lo hi : Z) : PG Z :=
  s <- faker_draw ;; ret (lo + s mod (hi - lo + 1)).

(** [connection.autocommit = True]. *)
Definition connection_set_autocommit (b : bool) : PG unit :=
  fun w => (Ret tt, set_autocommit b w).

(** *** class CreateTable(QueryExecutor) *)

Definition create_students_table : PG unit :=
  let query := CREATE_TABLE_students in
  execute_query pg_run query "create students table" None true true.

Definition create_scores_table : PG unit :=
  let query := CREATE_TABLE_scores in
  execute_query pg_run query "create scores table" None true true.

(** *** class InsertData(QueryExecutor) *)

(** [for _ in range(n)]: the body, [n] times, left at the first exception. *)
Fixpoint for_range (n : nat) (body : PG unit) : PG unit :=
  match n with
  | O => ret tt
  | S n' => body ;; for_range n' body
  end.

(** [for x in l]. *)
Fixpoint for_each {A : Type} (l : list A) (body : A -> PG unit) : PG unit :=
  match l with
  | [] => ret tt
  | x :: l' => body x ;; for_each l' body
  end.

(** One turn of the loop of [insert_students]. *)
Definition insert_students_row : PG unit :=
  let insert_query := INSERT_INTO_students in
  name <- faker_name ;;
  birth <- faker_date_of_birth ;;
  group <- faker_random_int 1 10 ;;
  execute_query pg_run insert_query "insert students"
                (Some [VText name; VDate birth; VInt group]) true false.

Definition insert_students (students_number : Z) : PG unit :=
  for_range (Z.to_nat students_number) insert_students_row ;;
  print "Students table filled successfully!".

(** One turn of the loop of [insert_scores]. *)
Definition insert_scores_row (row : row) : PG unit :=
  let insert_query := INSERT_INTO_scores in
  match row with
  | student_id :: _ =>
      points <- faker_random_int 0 100 ;;
      execute_query pg_run insert_query "insert scores"
                    (Some [student_id; VInt points]) true false
  | [] => raise (Exn IndexError "tuple index out of range")
  end.

Definition insert_scores : PG unit :=
  cursor <- execute_query_return_cursor pg_run SELECT_id_FROM_students
              "select students' identifiers" None false true ;;
  match cursor with
  | Some cursor =>
      rows <- cursor_fetchall cursor ;;
      cursor_close cursor ;;
      for_each rows insert_scores_row ;;
      print "Scores table filled successfully!"
  | None => ret tt
  end.

(** *** class UpdateData(QueryExecutor) *)

Definition update_group (student_id new_group : Z) : PG unit :=
  let update_query := UPDATE_students_SET_group in
  cursor <- execute_query_return_cursor pg_run update_query
              "update student's group"
              (Some [VInt new_group; VInt student_id]) false true ;;
  match cursor with
  | Some cursor =>
      changes_number <- cursor_rowcount cursor ;;
      cursor_close cursor ;;
      if changes_number =? 0 then
        print (fstring ["No student with id "; str_int student_id; " found."])
      else
        print (fstring ["Student with id "; str_int student_id;
                        " now in group "; str_int new_group; "."])
  | None => ret tt
  end.

(** *** class DeleteData(QueryExecutor) *)

Definition delete_group (group : Z) : PG unit :=
  let delete_query := DELETE_FROM_students in
  cursor <- execute_query_return_cursor pg_run delete_query "delete group"
              (Some [VInt group]) false true ;;
  match cursor with
  | Some cursor =>
      changes_number <- cursor_rowcount cursor ;;
      cursor_close cursor ;;
      if changes_number =? 0 then
        print (fstring ["No student from group "; str_int group; " found."])
      else
        print (fstring [str_int changes_number; " student(s) of group ";
                        str_int group; " deleted."])
  | None => ret tt
  end.

(** *** class QueryData(QueryExecutor) *)

Definition fetch_group (group : Z) : PG (option (list row)) :=
  let select_query := SELECT_FROM_students_WHERE_group in
  cursor <- execute_query_return_cursor pg_run select_query "fetch group"
              (Some [VInt group; VInt ROW_LIMIT]) false true ;;
  match cursor with
  | Some cursor =>
      result <- cursor_fetchall cursor ;;
      match result with
      | [] => ret tt
      | _ :: _ => print (fstring ["Group number "; str_int group; " fetched!"])
      end ;;
      cursor_close cursor ;;
      ret (Some result)
  | None => ret None
  end.

(** *** class ComplexQuery(QueryExecutor) *)

Definition two_digits (n : Z) : string :=
  if n <? 10 then fstring ["0"; str_int n] else str_int n.

(** [f"{score:.2f}"] of a Decimal: two decimals, ties to even. *)
Definition format_2f (q : Q) : string :=
  let a := Z.abs (Qnum q) * 100 in
  let d := Zpos (Qden q) in
  let r := a mod d in
  let h := if 2 * r <? d then a / d
           else if d <? 2 * r then a / d + 1
           else if Z.even (a / d) then a / d else a / d + 1 in
  fstring [if Qnum q <? 0 then "-" else EmptyString;
           str_int (h / 100); "."; two_digits (h mod 100)].

Definition average_message (group : Z) (score : Q) : string :=
  fstring ["Group's number "; str_int group; " average score: "; format_2f score].

Definition no_group_message (group : Z) : string :=
  fstring ["No group number "; str_int group; " in the DB."].

Definition calculate_group_average_score (group : Z) : PG unit :=
  let calculate_query := SELECT_AVG_score in
  cursor <- execute_query_return_cursor pg_run calculate_query
              "calculate group's average score" (Some [VInt group]) false true ;;
  match cursor with
  | Some cursor =>
      result <- cursor_fetchone cursor ;;
      cursor_close cursor ;;
      match result with
      | Some (VNumeric score :: _) => print (average_message group score)
      | Some (VInt score :: _) => print (average_message group (score # 1))
      | Some (VNull :: _) | None => print (no_group_message group)
      | Some [] => raise (Exn IndexError "tuple index out of range")
      | Some (_ :: _) => raise (Exn ValueError "Unknown format code 'f'")
      end
  | None => ret tt
  end.

(** *** class AdditionalFeatures(QueryExecutor) *)

Definition fetch_sorted_data (table column : string) : PG (option (list row)) :=
  let select_query := SELECT_ORDER_BY table column in
  cursor <- execute_query_return_cursor pg_run select_query
              (fstring ["fetch data for "; table; " table sorted by "; column])
              (Some [VInt ROW_LIMIT]) false true ;;
  match cursor with
  | Some cursor =>
      result <- cursor_fetchall cursor ;;
      cursor_close cursor ;;
      ret (Some result)
  | None => ret None
  end.

Definition search_student_by_name (partial_name : string) : PG (option (list row)) :=
  let select_query := SELECT_FROM_students_WHERE_name_ILIKE in
  cursor <- execute_query_return_cursor pg_run select_query
              (fstring ["search students by name "; partial_name])
              (Some [VText (fstring ["%"; partial_name; "%"])]) false true ;;
  match cursor with
  | Some cursor =>
      result <- cursor_fetchall cursor ;;
      cursor_close cursor ;;
      ret (Some result)
  | None => ret None
  end.

Definition update_score (student_id new_score : Z) : PG unit :=
  let update_query := UPDATE_scores_SET_score in
  cursor <- execute_query_return_cursor pg_run update_query
              "update student's score"
              (Some [VInt new_score; VInt student_id]) false true ;;
  match cursor with
  | Some cursor =>
      changes_number <- cursor_rowcount cursor ;;
      cursor_close cursor ;;
      if changes_number =? 0 then
        print (fstring ["No student with id "; str_int student_id; " found."])
      else
        print (fstring ["Student with id "; str_int student_id;
                        " now has "; str_int new_score; " points."])
  | None => ret tt
  end.

(** *** clear_tables.py *)

Definition connection_from_environ : PG (option unit) :=
  db_name <- environ_get "POSTGRES_DB" ;;
  db_user <- environ_get "POSTGRES_USER" ;;
  db_password <- environ_get "POSTGRES_PASSWORD" ;;
  db_host <- environ_get "DB_HOST" ;;
  db_port <- environ_get "DB_PORT" ;;
  create_connection db_name db_user db_password db_host db_port.

Definition clear_tables : PG unit :=
  connection <- connection_from_environ ;;
  match connection with
  | None => ret tt
  | Some _ =>
      connection_set_autocommit true ;;
      execute_query pg_run TRUNCATE_students "clear tables" None false true ;;
      connection_close
  end.

(** *** print_table and main *)

(** prettytable, which is not part of the repository: what follows embeds
    the library's [PrettyTable.__init__], its [field_names] setter with
    [_validate_field_names], and [add_row].  A table is its field names
    and its rows.  The field names differ from each other; a table made
    without field names takes "Field 1", "Field 2", ... from the first row
    it is given; every row has one value per field.  What breaks this is
    refused with ValueError. *)
Record PrettyTable : Type := Table {
  field_names : list string;
  pt_rows : list row
}.

(** [len(val) == len(set(val))] *)
Fixpoint distinct (val : list string) : bool :=
  match val with
  | [] => true
  | x :: val' => negb (existsb (String.eqb x) val') && distinct val'
  end.

Definition incorrect_number (what : string) (actual expected : nat) : exn :=
  Exn ValueError
      (fstring [what; " has incorrect number of values, (actual) ";
                str_int (Z.of_nat actual); "!="; str_int (Z.of_nat expected);
                " (expected)"]).

(** The check of the [field_names] setter: as many names as the table
    has fields, as the rows it has have values, and no name twice. *)
Definition validate_field_names (table : PrettyTable) (val : list string)
    : outcome unit :=
  match field_names table with
  | _ :: _ =>
      if Nat.eqb (length val) (length (field_names table)) then Ret tt
      else Raise (incorrect_number "Field name list" (length val)
                                   (length (field_names table)))
  | [] => Ret tt
  end >>= fun _ =>
  match pt_rows table with
  | r0 :: _ =>
      if Nat.eqb (length val) (length r0) then Ret tt
      else Raise (incorrect_number "Field name list" (length val) (length r0))
  | [] => Ret tt
  end >>= fun _ =>
  if distinct val then Ret tt
  else Raise (Exn ValueError "Field names must be unique").

(** [table.field_names = val] *)
Definition set_field_names (table : PrettyTable) (val : list string)
    : outcome PrettyTable :=
  validate_field_names table val >>= fun _ => Ret (Table val (pt_rows table)).

(** [PrettyTable(field_names)]: the names are set only when there are
    some. *)
Definition PrettyTable_init (names : list string) : outcome PrettyTable :=
  match names with
  | [] => Ret (Table [] [])
  | _ :: _ => set_field_names (Table [] []) names
  end.

(** ["Field 1"; ...; "Field n"] *)
Definition generated_names (n : nat) : list string :=
  map (fun i => fstring ["Field "; str_int (Z.of_nat (S i))]) (seq 0 n).

(** [add_row]: with field names, a row of another length is refused;
    without, the names are made for the row, through the setter; then the
    row is appended. *)
Definition add_row (table : PrettyTable) (r : row) : outcome PrettyTable :=
  match field_names table with
  | _ :: _ =>
      if Nat.eqb (length r) (length (field_names table)) then
        Ret (Table (field_names table) (pt_rows table ++ [r]))
      else
        Raise (incorrect_number "Row" (length r) (length (field_names table)))
  | [] =>
      set_field_names table (generated_names (length r)) >>= fun table' =>
      Ret (Table (field_names table') (pt_rows table' ++ [r]))
  end.

(** [table.add_row(row)] for each row of [data], up to the first
    exception. *)
Fixpoint add_rows (table : PrettyTable) (data : list row) : outcome PrettyTable :=
  match data with
  | [] => Ret table
  | r :: data' => add_row table r >>= fun table' => add_rows table' data'
  end.

Section Printer.

(** [str(table)]: the rendering of the library, or the exception it
    raises; [print(table)] comes after the [try]. *)
Variable get_string : PrettyTable -> outcome string.

Definition print_table (data : option (list row)) (column_names : list string)
    : PG unit :=
  match data with
  | None | Some [] => ret tt
  | Some rows =>
      table <- try_except
                 (fun w => (PrettyTable_init column_names >>= fun table =>
                            add_rows table rows >>= fun table =>
                            Ret (Some table), w))
                 value_error
                 (fun e =>
                    print (fstring ["Failed to print table: error "; dq;
                                    exn_msg e; dq; " occurred."]) ;;
                    ret None) ;;
      match table with
      | Some table =>
          rendered <- (fun w => (get_string table, w)) ;;
          print rendered
      | None => ret tt
      end
  end.

Definition main : PG unit :=
  connection <- connection_from_environ ;;
  match connection with
  | None => ret tt
  | Some _ =>
      connection_set_autocommit true ;;
      populated <-
        try_except
          (create_students_table ;;
           create_scores_table ;;
           insert_students 10 ;;
           insert_scores ;;
           ret true)
          db_error
          (fun _ =>
             connection_close ;;
             print "Critical error occurred!" ;;
             ret false) ;;
      if populated : bool then
        update_group 5 10 ;;
        delete_group 2 ;;
        fetched_students <- fetch_group 8 ;;
        print_table fetched_students ["id"; "name"; "birth_date"] ;;
        calculate_group_average_score 8 ;;
        sorted_scores <- fetch_sorted_data "scores" "score" ;;
        print_table sorted_scores ["id"; "student_id"; "score"] ;;
        fetched_students <- search_student_by_name "tracy" ;;
        print_table fetched_students ["id"; "name"; "birth_date"; "group"] ;;
        update_score 3 100 ;;
        connection_close
      else ret tt
  end.

End Printer.

(** ** The vocabulary of the properties *)

Section Worlds.

Context {query params server : Type}.

(** The world once a statement has been sent through a cursor just
    opened: the server has moved to [s], the cursor is left as [cur]. *)
Definition sent (q : query) (ps : option params) (s : server) (cur : cursor)
    (w : world query params server) : world query params server :=
  World s (stdout w) (cursors w ++ [cur]) (connection w) (autocommit w)
        (issued w ++ [(q, ps)]) (environ w) (connect_error w) (faker_seed w).

Definition printed (lines : list string) (w : world query params server)
    : world query params server :=
  set_stdout (stdout w ++ lines) w.

End Worlds.

(** The database behind a world. *)
Definition database_of (w : pg_world) : database := tables (backend w).

(** None of the next [n] statements is failed on its way to the database. *)
Definition quiet (n : nat) (w : pg_world) : bool :=
  forallb is_None (firstn n (faults (backend w))).

Definition scores_of (db : database) : list score :=
  match scores db with Some l => l | None => [] end.

Definition group_members (db : database) (group : Z) : list student :=
  filter (fun s => st_group s =? group) (students_of db).

Definition students_with_id (db : database) (id : Z) : list student :=
  filter (fun s => st_id s =? id) (students_of db).

Definition scores_of_student (db : database) (id : Z) : list score :=
  filter (fun s => sc_student_id s =? id) (scores_of db).

(** Every score refers to a student (the foreign key of [scores]). *)
Definition references_hold (db : database) : Prop :=
  forall sc, In sc (scores_of db) -> students_with_id db (sc_student_id sc) <> [].

(** The two calls of the table manager, in the order of [main]. *)
Definition create_tables : PG unit :=
  create_students_table ;; create_scores_table.

(** What a call sent: the statements of [w'] after those of [w]. *)
Definition new_statements (w w' : pg_world) : list (sql * option (list value)) :=
  skipn (length (issued w)) (issued w').

(** The populator would go on after a failed insert: [insert_students n]
    returns, having sent its [n] inserts and printed its last line. *)
Definition continues_past_failures (n : Z) (w : pg_world) : Prop :=
  let (r, w') := insert_students n w in
  r = Ret tt
  /\ length (new_statements w w') = Z.to_nat n
  /\ last (stdout w') EmptyString = "Students table filled successfully!".

Definition all_fit (column_names : list string) (data : list row) : bool :=
  forallb (fun r => Nat.eqb (length r) (length column_names)) data.

Definition print_failure (msg : string) : string :=
  fstring ["Failed to print table: error "; dq; msg; dq; " occurred."].

(** The fields of the table that [print_table] builds: the column names
    or, when there are none, the names made for the first row. *)
Definition header (column_names : list string) (data : list row) : list string :=
  match column_names with
  | [] => generated_names (length (hd [] data))
  | _ :: _ => column_names
  end.

(** The table built from the column names and the rows, or the exception
    of the library. *)
Definition built (column_names : list string) (data : list row) : outcome PrettyTable :=
  PrettyTable_init column_names >>= fun table => add_rows table data.

(** What [print_table] would do if only the shape of the rows decided:
    nothing for no rows, the diagnostic when a row does not fit the column
    names, the rendered table otherwise. *)
Definition shape_alone_decides
    (get_string : PrettyTable -> outcome string)
    (data : option (list row)) (column_names : list string) (w : pg_world) : Prop :=
  let w' := snd (print_table get_string data column_names w) in
  match data with
  | None | Some [] => stdout w' = stdout w
  | Some rows =>
      if all_fit column_names rows
      then exists rendered,
             get_string (Table column_names rows) = Ret rendered
             /\ stdout w' = stdout w ++ [rendered]
      else exists msg, stdout w' = stdout w ++ [print_failure msg]
  end.

(** A rendering to run the examples with, in place of the library's: the
    field names and the number of rows. *)
Definition sample_rendering (table : PrettyTable) : outcome string :=
  Ret (fstring [String.concat " | " (field_names table); " / ";
                str_int (Z.of_nat (length (pt_rows table))); " rows"]).

(** The lines of the mutators. *)
Definition no_student_message (student_id : Z) : string :=
  fstring ["No student with id "; str_int student_id; " found."].
Definition group_changed_message (student_id new_group : Z) : string :=
  fstring ["Student with id "; str_int student_id; " now in group ";
           str_int new_group; "."].
Definition score_changed_message (student_id new_score : Z) : string :=
  fstring ["Student with id "; str_int student_id; " now has ";
           str_int new_score; " points."].
Definition no_member_message (group : Z) : string :=
  fstring ["No student from group "; str_int group; " found."].
Definition group_deleted_message (n group : Z) : string :=
  fstring [str_int n; " student(s) of group "; str_int group; " deleted."].

(** The cursor of handle [c] has been closed. *)
Definition is_closed (w : pg_world) (c : nat) : Prop :=
  exists cur, nth_error (cursors w) c = Some cur /\ cur_closed cur = true.

(** The line of [fetch_group]. *)
Definition fetched_message (group : Z) : string :=
  fstring ["Group number "; str_int group; " fetched!"].

(** The rows [fetch_group] asks for: id, name and birth date of the
    members of the group. *)
Definition group_rows (db : database) (group : Z) : list row :=
  map (fun s => [VInt (st_id s); VText (st_name s); VDate (st_birth_date s)])
      (group_members db group).

(** A querier tells an empty answer from a failure: it returns the rows of
    an answer, the empty list when there are none, and None exactly when
    the statement failed with an error the executor handles. *)
Definition tells_empty_from_failure
    (r : outcome (option (list row))) (answer : outcome result) : Prop :=
  (forall res, answer = Ret res ->
               exists rows, res = selected rows /\ r = Ret (Some rows))
  /\ (forall res, answer = Ret res -> res_rowcount res = 0 -> r = Ret (Some []))
  /\ (r = Ret None <-> exists e, answer = Raise e /\ db_error e = true).

(** The tuple the next turn of [insert_students] draws from [faker]. *)
Definition student_tuple (w : pg_world) : list value :=
  let s1 := faker_next (faker_seed w) in
  let s2 := faker_next s1 in
  let s3 := faker_next s2 in
  [VText (fstring ["Student "; str_int s1]); VDate (693596 + s2 mod 42000);
   VInt (1 + s3 mod (10 - 1 + 1))].

(** The tuple the next turn of [insert_scores] builds for a row that
    starts with [student_id]. *)
Definition score_tuple (student_id : value) (w : pg_world) : list value :=
  [student_id; VInt (0 + faker_next (faker_seed w) mod (100 - 0 + 1))].

(** The world [insert_scores] starts its loop in, once its SELECT has been
    answered by [rows] and has left the server as [s]. *)
Definition identifiers_fetched (rows : list row) (s : pg_server) (w : pg_world)
    : pg_world :=
  printed [success_message "select students' identifiers"]
    (sent SELECT_id_FROM_students None s
          (Cursor true (Z.of_nat (length rows)) (Some [])) w).

(** *** Worlds to run the program on *)

(** The five variables of the environment. *)
Definition env_ok : list (string * string) :=
  [("POSTGRES_DB", "homework"); ("POSTGRES_USER", "postgres");
   ("POSTGRES_PASSWORD", "postgres"); ("DB_HOST", "localhost");
   ("DB_PORT", "5432")].

(** A database without tables. *)
Definition db_empty : database := Database None None 1 1.

(** Both tables created and empty. *)
Definition db_created : database := Database (Some []) (Some []) 1 1.

(** Three students in two groups, one score each for two of them. *)
Definition db_school : database :=
  Database (Some [Student 1 "Ann" 730000 8; Student 2 "Bob" 730100 2;
                  Student 3 "Tracy" 730200 8])
           (Some [Score 1 1 40; Score 2 3 95])
           4 3.

(** Thirty-one students, all of group 8. *)
Definition db_crowded : database :=
  Database (Some (map (fun i => Student (Z.of_nat i) "Member" 730000 8) (seq 1 31)))
           (Some []) 32 1.

(** A process connected to [db], with the given failures ahead. *)
Definition connected (db : database) (fs : list (option exn)) : pg_world :=
  World (Server db fs) [] [] Open true [] env_ok None SEED.

(** A process that has not connected yet. *)
Definition at_start (db : database) (env : list (string * string))
    (fs : list (option exn)) : pg_world :=
  World (Server db fs) [] [] NotConnected false [] env None SEED.

Definition connection_lost : exn :=
  Exn OperationalError "server closed the connection unexpectedly".

Definition read_only : exn :=
  Exn InternalError "cannot execute TRUNCATE TABLE in a read-only transaction".

(** *** The vocabulary of the further properties *)

(** The variables [main] and [clear_tables] read from the environment. *)
Definition credentials : list string :=
  ["POSTGRES_DB"; "POSTGRES_USER"; "POSTGRES_PASSWORD"; "DB_HOST"; "DB_PORT"].

(** The first part of [main], inside its [try]: the tables and their rows. *)
Definition populate_tables : PG bool :=
  create_students_table ;;
  create_scores_table ;;
  insert_students 10 ;;
  insert_scores ;;
  ret true.

(** The second part of [main], after its [try]. *)
Definition serve (get_string : PrettyTable -> outcome string) : PG unit :=
  update_group 5 10 ;;
  delete_group 2 ;;
  fetched_students <- fetch_group 8 ;;
  print_table get_string fetched_students ["id"; "name"; "birth_date"] ;;
  calculate_group_average_score 8 ;;
  sorted_scores <- fetch_sorted_data "scores" "score" ;;
  print_table get_string sorted_scores ["id"; "student_id"; "score"] ;;
  fetched_students <- search_student_by_name "tracy" ;;
  print_table get_string fetched_students ["id"; "name"; "birth_date"; "group"] ;;
  update_score 3 100 ;;
  connection_close.

(** A student moved to a group, a score given a value. *)
Definition regrouped (student_id new_group : Z) (st : student) : student :=
  if st_id st =? student_id
  then Student (st_id st) (st_name st) (st_birth_date st) new_group
  else st.

Definition rescored (student_id new_score : Z) (sc : score) : score :=
  if sc_student_id sc =? student_id
  then Score (sc_id sc) (sc_student_id sc) new_score
  else sc.

(** The rows are in ascending order of column [i]: each is at most the next. *)
Definition sorted_on (i : nat) (rows : list row) : Prop :=
  Sorted (fun a b => value_leb (nth i a VNull) (nth i b VNull) = true) rows.

(** A character that ILIKE reads as itself. *)
Definition plain (c : ascii) : bool :=
  negb (is_char 37 c || is_char 95 c || is_char 92 c).

(** Text made of ASCII characters; no text holds the character of code 0. *)
Definition is_ascii (s : string) : bool :=
  forallb (fun c => ((1 <=? nat_of_ascii c) && (nat_of_ascii c <? 128))%nat)
          (list_ascii_of_string s).



(** [part] occurs in [name], whatever the case of the letters. *)
Definition occurs_ignoring_case (part name : string) : Prop :=
  exists before mid after,
    list_ascii_of_string name = before ++ mid ++ after
    /\ map lower mid = map lower (list_ascii_of_string part).

(** ** Facts about the executor, for any statements and any server *)

Arguments fstring : simpl never.
Arguments str_int : simpl never.
Arguments success_message : simpl never.
Arguments failure_message : simpl never.

Lemma nth_error_snoc {A : Type} (l : list A) (x : A) :
  nth_error (l ++ [x]) (length l) = Some x.
Proof. induction l; simpl; auto. Qed.

Lemma list_set_snoc {A : Type} (l : list A) (x y : A) :
  list_set (length l) y (l ++ [x]) = l ++ [y].
Proof. induction l; simpl; congruence. Qed.

Lemma failure_message_names_query (query_name : string) (e : exn) :
  contains (failure_message query_name e) query_name.
Proof.
  exists "Failed to ", (fstring [": error "; dq; exn_msg e; dq; " occurred."]).
  reflexivity.
Qed.

Section ExecutorFacts.

Context {query params server : Type}.
Variable run : query -> option params -> server -> outcome result * server.

(** [execute_query] on an open connection, in one step. *)
Lemma execute_query_open q name ps raise_exc print_success
    (w : world query params server) :
  connection w = Open ->
  execute_query run q name ps raise_exc print_success w =
  match run q ps (backend w) with
  | (Ret r, s) =>
      (Ret tt,
       printed (if print_success then [success_message name] else [])
               (sent q ps s (Cursor true (res_rowcount r) (res_rows r)) w))
  | (Raise e, s) =>
      if db_error e then
        (if raise_exc then Raise e else Ret tt,
         printed [failure_message name e] (sent q ps s (Cursor true (-1) None) w))
      else (Raise e, sent q ps s (Cursor true (-1) None) w)
  end.
Proof.
  intros Hopen. destruct w as [s0 out cs conn ac iss env ce fs]. simpl in *. subst conn.
  unfold execute_query, try_except, with_cursor, bind, try_finally,
    connection_cursor, cursor_execute, cursor_close, when, print, ret, raise,
    printed, sent; simpl.
  rewrite !nth_error_snoc; simpl.
  destruct (run q ps s0) as [[r|e] s]; simpl.
  - destruct print_success; simpl; rewrite list_set_snoc, nth_error_snoc; simpl;
      rewrite list_set_snoc; unfold set_stdout; simpl; rewrite ?app_nil_r; reflexivity.
  - rewrite nth_error_snoc; simpl. rewrite list_set_snoc.
    destruct (db_error e); [destruct raise_exc|]; reflexivity.
Qed.

(** [execute_query_return_cursor] on an open connection, in one step. *)
Lemma execute_query_return_cursor_open q name ps raise_exc print_success
    (w : world query params server) :
  connection w = Open ->
  execute_query_return_cursor run q name ps raise_exc print_success w =
  match run q ps (backend w) with
  | (Ret r, s) =>
      (Ret (Some (length (cursors w))),
       printed (if print_success then [success_message name] else [])
               (sent q ps s (Cursor false (res_rowcount r) (res_rows r)) w))
  | (Raise e, s) =>
      if db_error e then
        if raise_exc then
          (Raise e,
           printed [failure_message name e] (sent q ps s (Cursor true (-1) None) w))
        else
          (Ret None, printed [failure_message name e] (sent q ps s new_cursor w))
      else (Raise e, sent q ps s new_cursor w)
  end.
Proof.
  intros Hopen. destruct w as [s0 out cs conn ac iss env ce fs]. simpl in *. subst conn.
  unfold execute_query_return_cursor, bind, connection_cursor, cursor_execute,
    cursor_close, when, print, ret, raise, printed, sent; simpl.
  rewrite !nth_error_snoc; simpl.
  destruct (run q ps s0) as [[r|e] s]; simpl.
  - rewrite list_set_snoc.
    destruct print_success; unfold set_stdout; simpl; rewrite ?app_nil_r; reflexivity.
  - destruct (db_error e); [destruct raise_exc|]; simpl; try reflexivity.
    rewrite nth_error_snoc; simpl. rewrite list_set_snoc. reflexivity.
Qed.

(** On a connection that is not open no cursor is made: both executors
    raise the InterfaceError of [connection.cursor()]. *)
Lemma execute_query_not_open q name ps raise_exc print_success
    (w : world query params server) :
  connection w <> Open ->
  execute_query run q name ps raise_exc print_success w =
    (Raise (Exn InterfaceError "connection already closed"), w)
  /\ execute_query_return_cursor run q name ps raise_exc print_success w =
    (Raise (Exn InterfaceError "connection already closed"), w).
Proof.
  intros Hc.
  unfold execute_query, execute_query_return_cursor, try_except, with_cursor,
    bind, connection_cursor, raise.
  destruct (connection w); try congruence; split; reflexivity.
Qed.

End ExecutorFacts.

(** ** The query executor *)

(** C4. [execute_query] on an open connection sends the statement once,
    through a cursor of its own that is closed when the call is left.  When
    the statement fails with an operational, programming or integrity
    error, the one line printed is the diagnostic, which contains the query
    name, and the exception is re-raised exactly when [raise_exc] is set:
    otherwise the call returns.  An exception of another class is not
    handled; a statement that succeeds returns, with the success line when
    [print_success] is set. *)
Theorem execute_query_scoped_cursor
    {query params server : Type}
    (run : query -> option params -> server -> outcome result * server)
    (q : query) (name : string) (ps : option params)
    (raise_exc print_success : bool) (w : world query params server) :
  connection w = Open ->
  let r := fst (execute_query run q name ps raise_exc print_success w) in
  let w' := snd (execute_query run q name ps raise_exc print_success w) in
  issued w' = issued w ++ [(q, ps)]
  /\ (exists cur, cursors w' = cursors w ++ [cur] /\ cur_closed cur = true)
  /\ match fst (run q ps (backend w)) with
     | Ret _ =>
         r = Ret tt
         /\ stdout w' = stdout w ++ (if print_success then [success_message name] else [])
     | Raise e =>
         if db_error e then
           stdout w' = stdout w ++ [failure_message name e]
           /\ contains (failure_message name e) name
           /\ (r = Raise e <-> raise_exc = true)
           /\ (r = Ret tt <-> raise_exc = false)
         else r = Raise e /\ stdout w' = stdout w
     end.
Proof.
  intros Hopen r w'. subst r w'.
  rewrite (execute_query_open run q name ps raise_exc print_success w Hopen).
  destruct (run q ps (backend w)) as [[res|e] s]; simpl.
  - repeat split; eauto.
  - destruct (db_error e) eqn:He; simpl.
    + repeat split; eauto using failure_message_names_query;
        destruct raise_exc; intros; congruence.
    + repeat split; eauto.
Qed.

Lemma execute_query_scoped_cursor_witness :
  let w := connected db_empty [Some connection_lost] in
  let r := fst (execute_query pg_run TRUNCATE_students "clear tables" None false true w) in
  let w' := snd (execute_query pg_run TRUNCATE_students "clear tables" None false true w) in
  connection w = Open
  /\ r = Ret tt
  /\ stdout w' = [failure_message "clear tables" connection_lost]
  /\ cursors w' = [Cursor true (-1) None].
Proof.
  intros w r w'.
  pose proof (execute_query_scoped_cursor pg_run TRUNCATE_students "clear tables"
                None false true w eq_refl) as H.
  split; [reflexivity|]. split; [|split]; [| |reflexivity].
  - apply (proj2 (proj2 (proj2 (proj2 (proj2 H))))). reflexivity.
  - apply (proj1 (proj2 (proj2 H))).
Defined.

(** C3. [execute_query_return_cursor] on an open connection: when the
    statement succeeds it returns the cursor it opened, not closed and
    holding the answer of the server; when the statement fails with an
    operational, programming or integrity error it prints the diagnostic
    and, with [raise_exc] unset, returns None, with [raise_exc] set, closes
    the cursor it opened and re-raises. *)
Theorem execute_query_return_cursor_live_or_none
    {query params server : Type}
    (run : query -> option params -> server -> outcome result * server)
    (q : query) (name : string) (ps : option params)
    (raise_exc print_success : bool) (w : world query params server) :
  connection w = Open ->
  let c := length (cursors w) in
  let r := fst (execute_query_return_cursor run q name ps raise_exc print_success w) in
  let w' := snd (execute_query_return_cursor run q name ps raise_exc print_success w) in
  match fst (run q ps (backend w)) with
  | Ret res =>
      r = Ret (Some c)
      /\ nth_error (cursors w') c = Some (Cursor false (res_rowcount res) (res_rows res))
      /\ stdout w' = stdout w ++ (if print_success then [success_message name] else [])
  | Raise e =>
      db_error e = true ->
      stdout w' = stdout w ++ [failure_message name e]
      /\ contains (failure_message name e) name
      /\ if raise_exc
         then r = Raise e /\ nth_error (cursors w') c = Some (Cursor true (-1) None)
         else r = Ret None
  end.
Proof.
  intros Hopen c r w'. subst c r w'.
  rewrite (execute_query_return_cursor_open run q name ps raise_exc print_success w Hopen).
  destruct (run q ps (backend w)) as [[res|e] s]; simpl.
  - repeat split. apply nth_error_snoc.
  - intros He. rewrite He.
    destruct raise_exc; simpl; repeat split;
      auto using failure_message_names_query, nth_error_snoc.
Qed.

Lemma execute_query_return_cursor_live_or_none_witness :
  let w := connected db_school [] in
  connection w = Open
  /\ fst (execute_query_return_cursor pg_run SELECT_id_FROM_students
            "select students' identifiers" None false true w) = Ret (Some O)
  /\ nth_error (cursors (snd (execute_query_return_cursor pg_run SELECT_id_FROM_students
                              "select students' identifiers" None false true w))) O
     = Some (Cursor false 3 (Some [[VInt 1]; [VInt 2]; [VInt 3]])).
Proof.
  intros w.
  pose proof (execute_query_return_cursor_live_or_none pg_run SELECT_id_FROM_students
                "select students' identifiers" None false true w eq_refl) as H.
  split; [reflexivity|]. split; [apply (proj1 H) | apply (proj1 (proj2 H))].
Defined.

(** ** The statements of the program, on PostgreSQL *)

Lemma pg_run_reaches q ps (s : pg_server) :
  hd None (faults s) = None ->
  pg_run q ps s =
    (fst (pg_statement q ps (tables s)),
     Server (snd (pg_statement q ps (tables s))) (tl (faults s))).
Proof.
  unfold pg_run. destruct s as [db [|[e|] fs]]; simpl; try discriminate;
    intros _; destruct (pg_statement q ps db); reflexivity.
Qed.

Ltac open_world w :=
  let db := fresh "db" in let fl := fresh "fl" in
  destruct w as [[db fl] ? ? ? ? ? ? ? ?]; simpl in *.

(** ** The table manager *)

(** C2. On an open connection, with nothing failing the four statements
    on their way, creating the two tables and creating them again does not
    fail, and the second run leaves the database, so the schema, as the
    first run left it: both tables exist and IF NOT EXISTS makes the second
    run a no-op. *)
Theorem create_tables_idempotent (w : pg_world) :
  connection w = Open ->
  quiet 4 w = true ->
  let w1 := snd (create_tables w) in
  let w2 := snd (create_tables w1) in
  fst (create_tables w) = Ret tt
  /\ fst (create_tables w1) = Ret tt
  /\ database_of w2 = database_of w1
  /\ students (database_of w1) <> None
  /\ scores (database_of w1) <> None.
Proof.
  unfold quiet, database_of.
  open_world w. intros -> Hq.
  unfold create_tables, create_students_table, create_scores_table, bind.
  destruct fl as [|[e0|] [|[e1|] [|[e2|] [|[e3|] fl]]]]; try discriminate Hq;
  destruct db as [[st|] [sc|] seq uu];
  repeat (rewrite execute_query_open by reflexivity; simpl);
  repeat split; congruence.
Qed.

Lemma create_tables_idempotent_witness :
  let w := connected db_empty [] in
  let w1 := snd (create_tables w) in
  connection w = Open
  /\ quiet 4 w = true
  /\ fst (create_tables w) = Ret tt
  /\ fst (create_tables w1) = Ret tt
  /\ database_of (snd (create_tables w1)) = Database (Some []) (Some []) 1 1.
Proof.
  intros w w1.
  pose proof (create_tables_idempotent w eq_refl eq_refl) as H.
  split; [reflexivity|]. split; [reflexivity|].
  split; [apply (proj1 H)|]. split; [apply (proj1 (proj2 H))|].
  exact (eq_trans (proj1 (proj2 (proj2 H))) eq_refl).
Defined.

(** ** The maintenance entry point *)

Lemma connection_obtained (w w0 : pg_world) (c : unit) :
  connection_from_environ w = (Ret (Some c), w0) ->
  w0 = printed ["Connection to PostgreSQL DB successful!"] (set_connection Open w).
Proof.
  unfold connection_from_environ, bind, environ_get, create_connection, try_except,
    connect, print, ret, printed, bind.
  destruct (assoc "POSTGRES_DB" (environ w)), (assoc "POSTGRES_USER" (environ w)),
    (assoc "POSTGRES_PASSWORD" (environ w)), (assoc "DB_HOST" (environ w)),
    (assoc "DB_PORT" (environ w)); simpl; try discriminate;
  destruct (connect_error w) as [[[] m]|]; simpl; try discriminate;
  intros H; inversion H; reflexivity.
Qed.

Lemma connection_absent (w w0 : pg_world) :
  connection_from_environ w = (Ret None, w0) ->
  backend w0 = backend w /\ issued w0 = issued w /\ connection w0 = connection w
  /\ cursors w0 = cursors w.
Proof.
  unfold connection_from_environ, bind, environ_get, create_connection, try_except,
    connect, print, ret, printed, bind.
  destruct (assoc "POSTGRES_DB" (environ w)), (assoc "POSTGRES_USER" (environ w)),
    (assoc "POSTGRES_PASSWORD" (environ w)), (assoc "DB_HOST" (environ w)),
    (assoc "DB_PORT" (environ w)); simpl;
  try (intros H; inversion H; subst; repeat split; reflexivity);
  destruct (connect_error w) as [[[] m]|]; simpl; try discriminate;
  intros H; inversion H; repeat split; reflexivity.
Qed.

(** C9. [clear_tables], when [create_connection] gives a connection,
    sends exactly one statement, the TRUNCATE of [students] with RESTART
    IDENTITY and CASCADE: when it succeeds [students] and [scores] are
    empty and the sequence of [students.id] is back at 1; whether it
    succeeds or fails with an error the executor handles, the connection
    is then closed (an exception of another class leaves
    [clear_tables]).  When [create_connection] gives None, nothing is
    sent, the server and the connection are untouched and the call
    returns. *)
Theorem clear_tables_truncates (w : pg_world) :
  let r := fst (clear_tables w) in
  let w' := snd (clear_tables w) in
  match fst (connection_from_environ w) with
  | Ret (Some _) =>
      issued w' = issued w ++ [(TRUNCATE_students, None)]
      /\ match fst (pg_run TRUNCATE_students None (backend w)) with
         | Ret _ =>
             r = Ret tt
             /\ connection w' = Closed
             /\ students (database_of w') = Some []
             /\ scores_of (database_of w') = []
             /\ students_id_seq (database_of w') = 1
         | Raise e =>
             database_of w' = database_of w
             /\ if db_error e then r = Ret tt /\ connection w' = Closed
                else r = Raise e
         end
  | Ret None =>
      r = Ret tt
      /\ w' = snd (connection_from_environ w)
      /\ issued w' = issued w
      /\ backend w' = backend w
      /\ connection w' = connection w
  | Raise e => r = Raise e /\ w' = snd (connection_from_environ w)
  end.
Proof.
  unfold clear_tables, bind.
  destruct (connection_from_environ w) as [[[c|]|e] w0] eqn:Hc; simpl.
  - apply connection_obtained in Hc. subst w0.
    unfold connection_set_autocommit, connection_close.
    rewrite execute_query_open by reflexivity. simpl.
    unfold pg_run, database_of.
    destruct w as [[db [|[e|] fl]] ? ? ? ? ? ? ? ?]; simpl.
    + destruct db as [[st|] [sc|] seq uu]; simpl; repeat split.
    + destruct (db_error e); simpl; repeat split.
    + destruct db as [[st|] [sc|] seq uu]; simpl; repeat split.
  - apply connection_absent in Hc. intuition.
  - split; reflexivity.
Qed.

Section MoreExecutorFacts.
Context {query params server : Type}.
Variable run : query -> option params -> server -> outcome result * server.

(** The pattern of the mutators: the row count is read from the cursor
    returned, the cursor is closed, then [k] reports. *)
Lemma rowcount_then_close q name ps (k : Z -> M query params server unit)
    (w : world query params server) :
  connection w = Open ->
  bind (execute_query_return_cursor run q name ps false true)
       (fun cursor =>
          match cursor with
          | Some cursor =>
              bind (cursor_rowcount cursor) (fun changes_number =>
              bind (cursor_close cursor) (fun _ => k changes_number))
          | None => ret tt
          end) w =
  match run q ps (backend w) with
  | (Ret r, s) =>
      k (res_rowcount r)
        (printed [success_message name]
                 (sent q ps s (Cursor true (res_rowcount r) (res_rows r)) w))
  | (Raise e, s) =>
      if db_error e
      then (Ret tt, printed [failure_message name e] (sent q ps s new_cursor w))
      else (Raise e, sent q ps s new_cursor w)
  end.
Proof.
  intros Hopen. unfold bind at 1.
  rewrite execute_query_return_cursor_open by assumption.
  destruct (run q ps (backend w)) as [[r|e] s].
  - unfold bind, cursor_rowcount, cursor_close, printed, sent; simpl.
    rewrite !nth_error_snoc; simpl. rewrite list_set_snoc. reflexivity.
  - destruct (db_error e); reflexivity.
Qed.

End MoreExecutorFacts.

Lemma update_group_open (student_id new_group : Z) (w : pg_world) :
  connection w = Open ->
  update_group student_id new_group w =
  match pg_run UPDATE_students_SET_group (Some [VInt new_group; VInt student_id])
               (backend w) with
  | (Ret r, s) =>
      (Ret tt,
       printed [if res_rowcount r =? 0 then no_student_message student_id
                else group_changed_message student_id new_group]
         (printed [success_message "update student's group"]
            (sent UPDATE_students_SET_group (Some [VInt new_group; VInt student_id]) s
                  (Cursor true (res_rowcount r) (res_rows r)) w)))
  | (Raise e, s) =>
      if db_error e
      then (Ret tt, printed [failure_message "update student's group" e]
                      (sent UPDATE_students_SET_group
                            (Some [VInt new_group; VInt student_id]) s new_cursor w))
      else (Raise e, sent UPDATE_students_SET_group
                          (Some [VInt new_group; VInt student_id]) s new_cursor w)
  end.
Proof.
  intros Hopen.
  refine (eq_trans
            (rowcount_then_close pg_run UPDATE_students_SET_group
               "update student's group" (Some [VInt new_group; VInt student_id])
               (fun n => if n =? 0
                         then print (no_student_message student_id)
                         else print (group_changed_message student_id new_group))
               w Hopen) _).
  destruct (pg_run _ _ _) as [[r|e] s]; [|reflexivity].
  destruct (res_rowcount r =? 0); reflexivity.
Qed.

Lemma update_score_open (student_id new_score : Z) (w : pg_world) :
  connection w = Open ->
  update_score student_id new_score w =
  match pg_run UPDATE_scores_SET_score (Some [VInt new_score; VInt student_id])
               (backend w) with
  | (Ret r, s) =>
      (Ret tt,
       printed [if res_rowcount r =? 0 then no_student_message student_id
                else score_changed_message student_id new_score]
         (printed [success_message "update student's score"]
            (sent UPDATE_scores_SET_score (Some [VInt new_score; VInt student_id]) s
                  (Cursor true (res_rowcount r) (res_rows r)) w)))
  | (Raise e, s) =>
      if db_error e
      then (Ret tt, printed [failure_message "update student's score" e]
                      (sent UPDATE_scores_SET_score
                            (Some [VInt new_score; VInt student_id]) s new_cursor w))
      else (Raise e, sent UPDATE_scores_SET_score
                          (Some [VInt new_score; VInt student_id]) s new_cursor w)
  end.
Proof.
  intros Hopen.
  refine (eq_trans
            (rowcount_then_close pg_run UPDATE_scores_SET_score
               "update student's score" (Some [VInt new_score; VInt student_id])
               (fun n => if n =? 0
                         then print (no_student_message student_id)
                         else print (score_changed_message student_id new_score))
               w Hopen) _).
  destruct (pg_run _ _ _) as [[r|e] s]; [|reflexivity].
  destruct (res_rowcount r =? 0); reflexivity.
Qed.

Lemma delete_group_open (group : Z) (w : pg_world) :
  connection w = Open ->
  delete_group group w =
  match pg_run DELETE_FROM_students (Some [VInt group]) (backend w) with
  | (Ret r, s) =>
      (Ret tt,
       printed [if res_rowcount r =? 0 then no_member_message group
                else group_deleted_message (res_rowcount r) group]
         (printed [success_message "delete group"]
            (sent DELETE_FROM_students (Some [VInt group]) s
                  (Cursor true (res_rowcount r) (res_rows r)) w)))
  | (Raise e, s) =>
      if db_error e
      then (Ret tt, printed [failure_message "delete group" e]
                      (sent DELETE_FROM_students (Some [VInt group]) s new_cursor w))
      else (Raise e, sent DELETE_FROM_students (Some [VInt group]) s new_cursor w)
  end.
Proof.
  intros Hopen.
  refine (eq_trans
            (rowcount_then_close pg_run DELETE_FROM_students
               "delete group" (Some [VInt group])
               (fun n => if n =? 0
                         then print (no_member_message group)
                         else print (group_deleted_message n group))
               w Hopen) _).
  destruct (pg_run _ _ _) as [[r|e] s]; [|reflexivity].
  destruct (res_rowcount r =? 0); reflexivity.
Qed.

Lemma filter_none {A : Type} (p : A -> bool) (l : list A) :
  (forall x, In x l -> p x = false) -> filter p l = [].
Proof.
  induction l as [|x l IH]; simpl; intros H; [reflexivity|].
  rewrite (H x) by auto. apply IH. auto.
Qed.

Lemma filter_all {A : Type} (p : A -> bool) (l : list A) :
  (forall x, In x l -> p x = true) -> filter p l = l.
Proof.
  induction l as [|x l IH]; simpl; intros H; [reflexivity|].
  rewrite (H x) by auto. rewrite IH; auto.
Qed.

Lemma filter_nil_inv {A : Type} (p : A -> bool) (l : list A) x :
  filter p l = [] -> In x l -> p x = false.
Proof.
  intros Hf Hin. destruct (p x) eqn:Hp; [|reflexivity].
  assert (In x (filter p l)) by (apply filter_In; auto).
  rewrite Hf in H. destruct H.
Qed.

Lemma no_student_no_score (db : database) (id : Z) :
  references_hold db -> students_with_id db id = [] -> scores_of_student db id = [].
Proof.
  intros Href Hnone. apply filter_none. intros sc Hin.
  destruct (sc_student_id sc =? id) eqn:E; [|reflexivity].
  apply Z.eqb_eq in E. subst id. destruct (Href sc Hin Hnone).
Qed.

(** ** The mutators *)

(** C7. On an open connection, whenever the statement of [update_group],
    [update_score] or [delete_group] succeeds, the call returns, the
    cursor it was given is closed, the affected-row count is the number of
    rows that match, and the line printed after the success line is the
    no-match message exactly when that count is 0, the success message
    otherwise.  Whatever the statement does, updating the group of a
    student that does not exist, or the score of a student without a score
    (so, where every score refers to a student, of a student that does not
    exist) leaves the database as it was; so does deleting an empty
    group. *)
Theorem mutators_branch_on_rowcount
    (student_id new_group new_score group : Z) (w : pg_world) :
  connection w = Open ->
  let db := database_of w in
  let c := length (cursors w) in
  (let r := fst (update_group student_id new_group w) in
   let w' := snd (update_group student_id new_group w) in
   (forall res,
      fst (pg_run UPDATE_students_SET_group
                  (Some [VInt new_group; VInt student_id]) (backend w)) = Ret res ->
      r = Ret tt
      /\ is_closed w' c
      /\ res_rowcount res = Z.of_nat (length (students_with_id db student_id))
      /\ stdout w' = stdout w ++
           [success_message "update student's group";
            if res_rowcount res =? 0 then no_student_message student_id
            else group_changed_message student_id new_group])
   /\ (students_with_id db student_id = [] -> database_of w' = db))
  /\
  (let r := fst (update_score student_id new_score w) in
   let w' := snd (update_score student_id new_score w) in
   (forall res,
      fst (pg_run UPDATE_scores_SET_score
                  (Some [VInt new_score; VInt student_id]) (backend w)) = Ret res ->
      r = Ret tt
      /\ is_closed w' c
      /\ res_rowcount res = Z.of_nat (length (scores_of_student db student_id))
      /\ stdout w' = stdout w ++
           [success_message "update student's score";
            if res_rowcount res =? 0 then no_student_message student_id
            else score_changed_message student_id new_score])
   /\ (scores_of_student db student_id = [] -> database_of w' = db)
   /\ (references_hold db -> students_with_id db student_id = [] ->
       database_of w' = db))
  /\
  (let r := fst (delete_group group w) in
   let w' := snd (delete_group group w) in
   (forall res,
      fst (pg_run DELETE_FROM_students (Some [VInt group]) (backend w)) = Ret res ->
      r = Ret tt
      /\ is_closed w' c
      /\ res_rowcount res = Z.of_nat (length (group_members db group))
      /\ stdout w' = stdout w ++
           [success_message "delete group";
            if res_rowcount res =? 0 then no_member_message group
            else group_deleted_message (res_rowcount res) group])
   /\ (group_members db group = [] -> database_of w' = db)).
Proof.
  intros Hopen db c. subst db c.
  assert (Hupd_score :
    scores_of_student (database_of w) student_id = [] ->
    database_of (snd (update_score student_id new_score w)) = database_of w).
  { rewrite update_score_open by assumption.
    unfold pg_run, database_of, scores_of_student, scores_of.
    destruct w as [[[st sc seq uu] [|[e|] fl]] ? ? ? ? ? ? ? ?]; simpl in *;
      unfold update_scores_score, update_students_group, delete_students; simpl;
      try (destruct (db_error e); reflexivity);
      (destruct sc as [l|]; simpl; [|reflexivity];
       destruct (int4 new_score); simpl; [|reflexivity];
       intros Hnone; unfold set_scores; simpl; rewrite Hnone;
       rewrite (filter_all (fun s => negb (sc_student_id s =? student_id)) l)
         by (intros x Hx; rewrite (filter_nil_inv _ l x Hnone Hx); reflexivity);
       simpl; rewrite app_nil_r; reflexivity). }
  split; [|split].
  - rewrite update_group_open by assumption.
    unfold pg_run, database_of, students_with_id, students_of, is_closed.
    destruct w as [[[st sc seq uu] [|[e|] fl]] ? ? ? ? ? ? ? ?]; simpl in *;
      unfold update_scores_score, update_students_group, delete_students; simpl;
      try (split; [discriminate | destruct (db_error e); reflexivity]);
      (destruct st as [l|]; simpl; [|split; [discriminate|reflexivity]];
       destruct (int4 new_group); simpl; [|split; [discriminate|reflexivity]];
       split;
       [ intros res Hres; inversion Hres; subst res; simpl;
         rewrite nth_error_snoc, <- app_assoc; simpl; repeat split; eauto
       | intros Hnone; unfold set_students; simpl; rewrite Hnone;
         rewrite (filter_all (fun s => negb (st_id s =? student_id)) l)
           by (intros x Hx; rewrite (filter_nil_inv _ l x Hnone Hx); reflexivity);
         simpl; rewrite app_nil_r; reflexivity ]).
  - split; [|split; [exact Hupd_score|]].
    + rewrite update_score_open by assumption.
      unfold pg_run, database_of, scores_of_student, scores_of, is_closed.
      destruct w as [[[st sc seq uu] [|[e|] fl]] ? ? ? ? ? ? ? ?]; simpl in *;
      unfold update_scores_score, update_students_group, delete_students; simpl;
        try discriminate;
        (destruct sc as [l|]; simpl; [|discriminate];
         destruct (int4 new_score); simpl; [|discriminate];
         intros res Hres; inversion Hres; subst res; simpl;
         rewrite nth_error_snoc, <- app_assoc; simpl; repeat split; eauto).
    + intros Href Hnone. apply Hupd_score. apply no_student_no_score; assumption.
  - rewrite delete_group_open by assumption.
    unfold pg_run, database_of, group_members, students_of, is_closed.
    destruct w as [[[st sc seq uu] [|[e|] fl]] ? ? ? ? ? ? ? ?]; simpl in *;
      unfold update_scores_score, update_students_group, delete_students; simpl;
      try (split; [discriminate | destruct (db_error e); reflexivity]);
      (destruct st as [l|]; simpl; [|split; [discriminate|reflexivity]];
       split;
       [ intros res Hres; inversion Hres; subst res; simpl;
         rewrite nth_error_snoc, <- app_assoc; simpl; repeat split; eauto
       | intros Hnone; rewrite Hnone;
         rewrite (filter_all (fun s => negb (st_group s =? group)) l)
           by (intros x Hx; rewrite (filter_nil_inv _ l x Hnone Hx); reflexivity);
         destruct sc as [ls|]; simpl; [|reflexivity];
         rewrite (filter_all _ ls) by reflexivity; reflexivity ]).
Qed.

Lemma mutators_branch_on_rowcount_witness :
  let w := connected db_school [] in
  connection w = Open
  /\ stdout (snd (update_group 99 10 w)) =
       [success_message "update student's group"; no_student_message 99]
  /\ database_of (snd (update_group 99 10 w)) = db_school
  /\ stdout (snd (delete_group 8 w)) =
       [success_message "delete group"; group_deleted_message 2 8].
Proof.
  intros w.
  pose proof (mutators_branch_on_rowcount 99 10 100 8 w eq_refl) as [Hg [_ Hd]].
  split; [reflexivity|]. split; [|split].
  - apply (proj1 Hg (Result 0 None)). reflexivity.
  - apply (proj2 Hg). reflexivity.
  - apply (proj1 Hd (Result 2 None)). reflexivity.
Defined.

Section FetchFacts.
Context {query params server : Type}.
Variable run : query -> option params -> server -> outcome result * server.

(** The pattern of the queriers: the rows are fetched from the cursor
    returned, [k] reports, the cursor is closed, the rows are returned. *)
Lemma fetchall_then_close q name ps (k : list row -> M query params server unit)
    (w : world query params server) :
  connection w = Open ->
  bind (execute_query_return_cursor run q name ps false true)
       (fun cursor =>
          match cursor with
          | Some cursor =>
              bind (cursor_fetchall cursor) (fun result =>
              bind (k result) (fun _ =>
              bind (cursor_close cursor) (fun _ => ret (Some result))))
          | None => ret None
          end) w =
  match run q ps (backend w) with
  | (Ret r, s) =>
      match res_rows r with
      | Some rows =>
          bind (k rows) (fun _ =>
          bind (cursor_close (length (cursors w))) (fun _ => ret (Some rows)))
            (printed [success_message name]
               (sent q ps s (Cursor false (res_rowcount r) (Some [])) w))
      | None =>
          (Raise no_results,
           printed [success_message name]
             (sent q ps s (Cursor false (res_rowcount r) None) w))
      end
  | (Raise e, s) =>
      if db_error e
      then (Ret None, printed [failure_message name e] (sent q ps s new_cursor w))
      else (Raise e, sent q ps s new_cursor w)
  end.
Proof.
  intros Hopen. unfold bind at 1.
  rewrite execute_query_return_cursor_open by assumption.
  destruct (run q ps (backend w)) as [[r|e] s].
  - unfold bind at 1. unfold cursor_fetchall, printed, sent; simpl.
    rewrite !nth_error_snoc; simpl.
    destruct (res_rows r) as [rows|]; [|reflexivity].
    rewrite list_set_snoc. reflexivity.
  - destruct (db_error e); reflexivity.
Qed.

End FetchFacts.

Lemma select_group_answer (db : database) (group : Z) :
  pg_statement SELECT_FROM_students_WHERE_group (Some [VInt group; VInt ROW_LIMIT]) db =
  match students db with
  | Some _ => (Ret (selected (firstn (Z.to_nat ROW_LIMIT) (group_rows db group))), db)
  | None => (Raise (undefined_table "students"), db)
  end.
Proof.
  unfold group_rows, group_members, students_of. simpl. unfold select_group.
  destruct (students db); reflexivity.
Qed.

Lemma pg_run_cases q ps (s : pg_server) :
  (exists e fs, faults s = Some e :: fs /\ pg_run q ps s = (Raise e, Server (tables s) fs))
  \/ (hd None (faults s) = None
      /\ pg_run q ps s =
           (fst (pg_statement q ps (tables s)),
            Server (snd (pg_statement q ps (tables s))) (tl (faults s)))).
Proof.
  destruct s as [db [|[e|] fs]].
  - right. split; [reflexivity|]. apply pg_run_reaches. reflexivity.
  - left. exists e, fs. split; reflexivity.
  - right. split; [reflexivity|]. apply pg_run_reaches. reflexivity.
Qed.

Arguments firstn : simpl never.

(** ** The queriers *)

(** C5. Whatever the group and the world, [fetch_group] returns a list
    only if the statement was answered, and the list, which is the answer,
    has at most 30 rows: it is the first 30 rows of the group, all of them
    when the group has fewer, however many it has.  The line about the
    group follows the success line only when the list is not empty.  It
    returns None only if the statement failed with an error the executor
    handles, after the diagnostic; an exception of another class leaves
    it.  On an open connection an answered statement gives a list, a
    handled failure gives None. *)
Theorem fetch_group_capped (group : Z) (w : pg_world) :
  let r := fst (fetch_group group w) in
  let w' := snd (fetch_group group w) in
  let answer := fst (pg_run SELECT_FROM_students_WHERE_group
                            (Some [VInt group; VInt ROW_LIMIT]) (backend w)) in
  match r with
  | Ret (Some rows) =>
      (length rows <= 30)%nat
      /\ answer = Ret (selected rows)
      /\ rows = firstn 30 (group_rows (database_of w) group)
      /\ length rows = Nat.min 30 (length (group_members (database_of w) group))
      /\ stdout w' = stdout w ++ success_message "fetch group" ::
                       match rows with
                       | [] => []
                       | _ :: _ => [fetched_message group]
                       end
  | Ret None =>
      exists e, answer = Raise e /\ db_error e = true
                /\ stdout w' = stdout w ++ [failure_message "fetch group" e]
  | Raise e => db_error e = false /\ stdout w' = stdout w
  end
  /\ (connection w = Open ->
      (forall res, answer = Ret res -> exists rows, r = Ret (Some rows))
      /\ (forall e, answer = Raise e -> db_error e = true -> r = Ret None)).
Proof.
  intros r w' answer. subst r w' answer.
  destruct (connection w) eqn:Hc.
  1, 3: (destruct (execute_query_not_open pg_run SELECT_FROM_students_WHERE_group
             "fetch group" (Some [VInt group; VInt ROW_LIMIT]) false true w) as [_ Hn];
         [congruence|]; unfold fetch_group, bind; rewrite Hn; simpl;
         split; [split; reflexivity | discriminate]).
  assert (Heq := fetchall_then_close pg_run SELECT_FROM_students_WHERE_group
             "fetch group" (Some [VInt group; VInt ROW_LIMIT])
             (fun result => match result with
                            | [] => ret tt
                            | _ :: _ => print (fetched_message group)
                            end) w Hc).
  match type of Heq with ?l = _ => change l with (fetch_group group w) in Heq end.
  rewrite Heq. clear Heq.
  destruct (pg_run_cases SELECT_FROM_students_WHERE_group
              (Some [VInt group; VInt ROW_LIMIT]) (backend w))
    as [(e & fs & Hf & ->) | (Hq & ->)].
  - simpl. destruct (db_error e) eqn:He; simpl.
    + split; [eauto | split; [discriminate | reflexivity]].
    + split; [auto | split; [discriminate | congruence]].
  - rewrite select_group_answer. unfold database_of.
    change (Z.to_nat ROW_LIMIT) with 30%nat.
    pose proof (firstn_le_length 30 (group_rows (tables (backend w)) group)) as Hlen.
    pose proof (length_firstn 30 (group_rows (tables (backend w)) group)) as Hmin.
    unfold group_rows at 2 in Hmin. rewrite length_map in Hmin.
    remember (firstn 30 (group_rows (tables (backend w)) group)) as rows eqn:Hrows.
    destruct (students (tables (backend w))) eqn:Hs; simpl.
    + unfold bind, cursor_close, printed, sent, print, ret.
      destruct rows as [|x rows]; simpl; rewrite nth_error_snoc; simpl;
        rewrite <- ?app_assoc; repeat split; eauto; discriminate.
    + split; [eauto | split; [discriminate|]].
      intros e He. inversion He. reflexivity.
Qed.

Lemma fetch_group_capped_witness :
  let w := connected db_crowded [] in
  length (group_members db_crowded 8) = 31%nat
  /\ exists rows, fst (fetch_group 8 w) = Ret (Some rows) /\ length rows = 30%nat.
Proof.
  intros w. split; [reflexivity|].
  pose proof (fetch_group_capped 8 w) as [Hcap Hopen].
  destruct (proj1 (Hopen eq_refl) _ eq_refl) as [rows Hrows].
  exists rows. split; [exact Hrows|].
  cbv zeta in Hcap. rewrite Hrows in Hcap.
  destruct Hcap as (_ & _ & Hfirst & _). rewrite Hfirst. reflexivity.
Defined.

Section QuerierFacts.
Context {query params server : Type}.
Variable run : query -> option params -> server -> outcome result * server.

Lemma querier_returns q name ps (k : list row -> M query params server unit)
    (w : world query params server) :
  connection w = Open ->
  (forall rows w1, fst (k rows w1) = Ret tt) ->
  fst (bind (execute_query_return_cursor run q name ps false true)
         (fun cursor =>
            match cursor with
            | Some cursor =>
                bind (cursor_fetchall cursor) (fun result =>
                bind (k result) (fun _ =>
                bind (cursor_close cursor) (fun _ => ret (Some result))))
            | None => ret None
            end) w) =
  match fst (run q ps (backend w)) with
  | Ret r =>
      match res_rows r with
      | Some rows => Ret (Some rows)
      | None => Raise no_results
      end
  | Raise e => if db_error e then Ret None else Raise e
  end.
Proof.
  intros Hopen Hk. rewrite fetchall_then_close by assumption.
  destruct (run q ps (backend w)) as [[r|e] s]; simpl.
  - destruct (res_rows r) as [rows|]; [|reflexivity].
    unfold bind at 1.
    match goal with |- context [k rows ?w1] =>
      pose proof (Hk rows w1) as H; destruct (k rows w1) as [o w2] end.
    simpl in H. subst o. unfold bind, cursor_close, ret.
    destruct (nth_error (cursors w2) (length (cursors w))); reflexivity.
  - destruct (db_error e); reflexivity.
Qed.

End QuerierFacts.

Lemma selected_empty (rows : list row) :
  res_rowcount (selected rows) = 0 -> rows = [].
Proof. destruct rows; [reflexivity | discriminate]. Qed.

Lemma querier_tells r (answer : outcome result) :
  (forall res, answer = Ret res -> exists rows, res = selected rows) ->
  r = match answer with
      | Ret res =>
          match res_rows res with
          | Some rows => Ret (Some rows)
          | None => Raise no_results
          end
      | Raise e => if db_error e then Ret None else Raise e
      end ->
  tells_empty_from_failure r answer.
Proof.
  intros Hsel ->. unfold tells_empty_from_failure.
  destruct answer as [res|e].
  - destruct (Hsel res eq_refl) as [rows ->]. simpl. repeat split.
    + intros res Hres. inversion Hres. eauto.
    + intros res Hres H0. inversion Hres. subst res.
      rewrite (selected_empty rows H0). reflexivity.
    + discriminate.
    + intros (e & He & _). discriminate.
  - repeat split; try discriminate.
    + destruct (db_error e) eqn:He; [eauto | discriminate].
    + intros (e' & He' & Hd). inversion He'. subst e'. rewrite Hd. reflexivity.
Qed.

Lemma select_answers_rows q ps (s : pg_server) res :
  (q = SELECT_FROM_students_WHERE_group \/ q = SELECT_FROM_students_WHERE_name_ILIKE
   \/ exists table column, q = SELECT_ORDER_BY table column) ->
  fst (pg_run q ps s) = Ret res -> exists rows, res = selected rows.
Proof.
  intros Hq.
  destruct (pg_run_cases q ps s) as [(e & fs & _ & ->) | (_ & ->)]; [discriminate|].
  simpl. destruct s as [db fl]. simpl.
  destruct Hq as [-> | [-> | (table & column & ->)]]; simpl;
    destruct ps as [[|[] [|[] [|? ?]]]|]; simpl; try discriminate.
  - unfold select_group. destruct (students db); [|discriminate].
    destruct (_ <? 0); [discriminate|]. intros H; inversion H; eauto.
  - unfold select_ilike. destruct (students db); [|discriminate].
    intros H; inversion H; eauto.
  - unfold select_order_by. destruct (table_rows db table) as [[rows cols]|]; [|discriminate].
    destruct (index_of column cols); [|discriminate].
    destruct (_ <? 0); [discriminate|]. intros H; inversion H; eauto.
Qed.

(** C10. On an open connection, [fetch_group], [search_student_by_name]
    and [fetch_sorted_data] return the rows of the answer when their
    statement is answered, so the empty list, not None, when it matches no
    row; they return None exactly when the statement fails with an
    operational, programming or integrity error. *)
Lemma select_group_no_member (s : pg_server) (group : Z) :
  hd None (faults s) = None -> students (tables s) <> None ->
  group_members (tables s) group = [] ->
  fst (pg_run SELECT_FROM_students_WHERE_group
              (Some [VInt group; VInt ROW_LIMIT]) s) = Ret (selected []).
Proof.
  intros Hq Hs Hnone. rewrite pg_run_reaches by assumption.
  rewrite select_group_answer. unfold group_rows. rewrite Hnone.
  destruct (students (tables s)); [reflexivity | congruence].
Qed.

Lemma select_ilike_no_match (s : pg_server) (pattern : string) :
  hd None (faults s) = None -> students (tables s) <> None ->
  filter (fun st => name_ilike pattern (st_name st)) (students_of (tables s)) = [] ->
  fst (pg_run SELECT_FROM_students_WHERE_name_ILIKE (Some [VText pattern]) s)
  = Ret (selected []).
Proof.
  intros Hq Hs Hnone. rewrite pg_run_reaches by assumption.
  simpl. unfold select_ilike, students_of in *.
  destruct (students (tables s)); [|congruence]. rewrite Hnone. reflexivity.
Qed.

Lemma select_order_by_empty (s : pg_server) (table column : string) columns :
  hd None (faults s) = None ->
  table_rows (tables s) table = Some ([], columns) ->
  index_of column columns <> None ->
  fst (pg_run (SELECT_ORDER_BY table column) (Some [VInt ROW_LIMIT]) s)
  = Ret (selected []).
Proof.
  intros Hq Ht Hc. rewrite pg_run_reaches by assumption.
  simpl. unfold select_order_by. rewrite Ht.
  destruct (index_of column columns); [reflexivity | congruence].
Qed.

Theorem queriers_tell_empty_from_failure
    (group : Z) (partial_name table column : string) (w : pg_world) :
  connection w = Open ->
  let db := database_of w in
  let pattern := fstring ["%"; partial_name; "%"] in
  (tells_empty_from_failure
     (fst (fetch_group group w))
     (fst (pg_run SELECT_FROM_students_WHERE_group
                  (Some [VInt group; VInt ROW_LIMIT]) (backend w)))
   /\ tells_empty_from_failure
        (fst (search_student_by_name partial_name w))
        (fst (pg_run SELECT_FROM_students_WHERE_name_ILIKE
                     (Some [VText pattern]) (backend w)))
   /\ tells_empty_from_failure
        (fst (fetch_sorted_data table column w))
        (fst (pg_run (SELECT_ORDER_BY table column) (Some [VInt ROW_LIMIT])
                     (backend w))))
  /\ (hd None (faults (backend w)) = None ->
      (students db <> None -> group_members db group = [] ->
       fst (fetch_group group w) = Ret (Some []))
      /\ (students db <> None ->
          filter (fun st => name_ilike pattern (st_name st)) (students_of db) = [] ->
          fst (search_student_by_name partial_name w) = Ret (Some []))
      /\ (forall columns,
            table_rows db table = Some ([], columns) ->
            index_of column columns <> None ->
            fst (fetch_sorted_data table column w) = Ret (Some []))).
Proof.
  intros Hopen db pattern. subst db pattern.
  assert (Htell :
    tells_empty_from_failure
      (fst (fetch_group group w))
      (fst (pg_run SELECT_FROM_students_WHERE_group
                   (Some [VInt group; VInt ROW_LIMIT]) (backend w)))
    /\ tells_empty_from_failure
         (fst (search_student_by_name partial_name w))
         (fst (pg_run SELECT_FROM_students_WHERE_name_ILIKE
                      (Some [VText (fstring ["%"; partial_name; "%"])]) (backend w)))
    /\ tells_empty_from_failure
         (fst (fetch_sorted_data table column w))
         (fst (pg_run (SELECT_ORDER_BY table column) (Some [VInt ROW_LIMIT])
                      (backend w)))).
  { split; [|split]; apply querier_tells.
    - intros res. apply select_answers_rows. auto.
    - exact (querier_returns pg_run SELECT_FROM_students_WHERE_group "fetch group"
               (Some [VInt group; VInt ROW_LIMIT])
               (fun result => match result with
                              | [] => ret tt
                              | _ :: _ => print (fetched_message group)
                              end) w Hopen
               (fun rows w1 => match rows with [] => eq_refl | _ :: _ => eq_refl end)).
    - intros res. apply select_answers_rows. auto.
    - exact (querier_returns pg_run SELECT_FROM_students_WHERE_name_ILIKE
               (fstring ["search students by name "; partial_name])
               (Some [VText (fstring ["%"; partial_name; "%"])])
               (fun _ => ret tt) w Hopen (fun _ _ => eq_refl)).
    - intros res. apply select_answers_rows. eauto.
    - exact (querier_returns pg_run (SELECT_ORDER_BY table column)
               (fstring ["fetch data for "; table; " table sorted by "; column])
               (Some [VInt ROW_LIMIT])
               (fun _ => ret tt) w Hopen (fun _ _ => eq_refl)). }
  split; [exact Htell|].
  destruct Htell as ((_ & Hg & _) & (_ & Hs & _) & (_ & Ho & _)).
  intros Hq. unfold database_of. split; [|split].
  - intros Hst Hnone.
    apply (Hg _ (select_group_no_member (backend w) group Hq Hst Hnone)). reflexivity.
  - intros Hst Hnone.
    apply (Hs _ (select_ilike_no_match (backend w) _ Hq Hst Hnone)). reflexivity.
  - intros columns Ht Hc.
    apply (Ho _ (select_order_by_empty (backend w) table column columns Hq Ht Hc)).
    reflexivity.
Qed.

Lemma queriers_tell_empty_from_failure_witness :
  let w := connected db_school [] in
  connection w = Open
  /\ fst (fetch_group 5 w) = Ret (Some [])
  /\ fst (search_student_by_name "zoe" w) = Ret (Some [])
  /\ fst (fetch_group 5 (connected db_school [Some connection_lost])) = Ret None.
Proof.
  intros w.
  pose proof (queriers_tell_empty_from_failure 5 "zoe" "scores" "score" w eq_refl)
    as [_ Hempty].
  pose proof (queriers_tell_empty_from_failure 5 "zoe" "scores" "score"
                (connected db_school [Some connection_lost]) eq_refl)
    as [[(_ & _ & Hnone) _] _].
  specialize (Hempty eq_refl). destruct Hempty as (Hg & Hs & _).
  split; [reflexivity|]. split; [|split].
  - apply Hg; [discriminate | reflexivity].
  - apply Hs; [discriminate | reflexivity].
  - apply Hnone. exists connection_lost. split; reflexivity.
Defined.

Lemma group_scores_no_member (db : database) (group : Z) :
  group_members db group = [] -> group_scores db group = [].
Proof. unfold group_members, group_scores. intros ->. reflexivity. Qed.

(** C6. On an open connection, when the aggregate statement of
    [calculate_group_average_score] is answered, the answer is the one row
    holding the average of the scores joined to the group, the cursor is
    closed and the line after the success line is the formatted average
    when there is a score to average, the line that the group is not in the
    database when the average is NULL; a group without students has no
    score to average.  When the statement fails neither line is printed. *)
Theorem average_printed_unless_null (group : Z) (w : pg_world) :
  connection w = Open ->
  let r := fst (calculate_group_average_score group w) in
  let w' := snd (calculate_group_average_score group w) in
  let points := group_scores (database_of w) group in
  match fst (pg_run SELECT_AVG_score (Some [VInt group]) (backend w)) with
  | Ret res =>
      r = Ret tt
      /\ res = selected [[avg points]]
      /\ is_closed w' (length (cursors w))
      /\ stdout w' = stdout w ++
           [success_message "calculate group's average score";
            match points with
            | [] => no_group_message group
            | _ :: _ =>
                average_message group (sum_Z points # Pos.of_nat (length points))
            end]
  | Raise e =>
      stdout w' = stdout w ++
        (if db_error e
         then [failure_message "calculate group's average score" e] else [])
  end
  /\ (group_members (database_of w) group = [] -> points = []).
Proof.
  intros Hopen r w' points. subst r w' points.
  split; [|apply group_scores_no_member].
  remember (calculate_group_average_score group w) as call eqn:Hcall.
  unfold calculate_group_average_score in Hcall. unfold bind at 1 in Hcall.
  rewrite execute_query_return_cursor_open in Hcall by assumption.
  destruct (pg_run_cases SELECT_AVG_score (Some [VInt group]) (backend w))
    as [(e & fs & Hf & Hrun) | (Hq & Hrun)]; rewrite Hrun in *; simpl in *.
  - destruct (db_error e); subst call; simpl; rewrite ?app_nil_r; reflexivity.
  - unfold select_avg, database_of, is_closed in *.
    destruct (students (tables (backend w))) eqn:Hs;
      [destruct (scores (tables (backend w))) eqn:Hsc|]; simpl in *;
      try (subst call; reflexivity).
    unfold bind, cursor_fetchone, cursor_close, printed, sent, print in Hcall;
      simpl in Hcall.
    rewrite !nth_error_snoc in Hcall; simpl in Hcall.
    rewrite list_set_snoc, nth_error_snoc in Hcall; simpl in Hcall.
    destruct (group_scores (tables (backend w)) group) as [|p points];
      simpl in Hcall; subst call; simpl;
      rewrite list_set_snoc, nth_error_snoc, <- app_assoc; simpl; repeat split; eauto.
Qed.

Lemma average_printed_unless_null_witness :
  let w := connected db_school [] in
  connection w = Open
  /\ stdout (snd (calculate_group_average_score 8 w)) =
       [success_message "calculate group's average score";
        average_message 8 (135 # 2)]
  /\ stdout (snd (calculate_group_average_score 5 w)) =
       [success_message "calculate group's average score"; no_group_message 5].
Proof.
  intros w.
  pose proof (average_printed_unless_null 8 w eq_refl) as [H8 _].
  pose proof (average_printed_unless_null 5 w eq_refl) as [H5 _].
  split; [reflexivity|]. split.
  - apply (proj2 (proj2 (proj2 H8))).
  - apply (proj2 (proj2 (proj2 H5))).
Defined.

Lemma generated_names_length (n : nat) : length (generated_names n) = n.
Proof. unfold generated_names. rewrite length_map, length_seq. reflexivity. Qed.

Lemma field_name_injective (i j : nat) :
  fstring ["Field "; str_int (Z.of_nat (S i))] =
  fstring ["Field "; str_int (Z.of_nat (S j))] -> i = j.
Proof.
  unfold fstring, str_int. cbn [String.concat String.append]. intros H.
  remember (NilZero.string_of_int (Z.to_int (Z.of_nat (S i)))) as a eqn:Ha.
  remember (NilZero.string_of_int (Z.to_int (Z.of_nat (S j)))) as b eqn:Hb.
  injection H as H. subst a b.
  assert (Hnum : forall k, NilZero.int_of_string
                             (NilZero.string_of_int (Z.to_int (Z.of_nat (S k)))) =
                           Some (Z.to_int (Z.of_nat (S k)))).
  { intros k. apply NilZero.isi.
    - rewrite Nat2Z.inj_succ. destruct (Z.of_nat k) eqn:E; try lia;
        cbn; intros [= Hnil]; revert Hnil; apply DecimalPos.Unsigned.to_uint_nonnil.
    - destruct (Z.of_nat (S k)) eqn:E; try lia; discriminate. }
  assert (Heq : Some (Z.to_int (Z.of_nat (S i))) = Some (Z.to_int (Z.of_nat (S j))))
    by (rewrite <- !Hnum; congruence).
  assert (Hz : Z.to_int (Z.of_nat (S i)) = Z.to_int (Z.of_nat (S j)))
    by congruence.
  apply DecimalZ.to_int_inj in Hz. lia.
Qed.

Lemma generated_names_distinct (n : nat) : distinct (generated_names n) = true.
Proof.
  unfold generated_names. generalize 0%nat as start.
  induction n as [|n IH]; intros start; [reflexivity|].
  cbn [seq map distinct]. rewrite IH, andb_true_r. apply negb_true_iff.
  destruct (existsb _ _) eqn:E; [|reflexivity].
  apply existsb_exists in E. destruct E as (x & Hin & Hx).
  apply String.eqb_eq in Hx. subst x.
  apply in_map_iff in Hin. destruct Hin as (j & Hj & Hin).
  apply field_name_injective in Hj. apply in_seq in Hin. lia.
Qed.

Lemma add_rows_fit cols acc data :
  cols <> [] ->
  all_fit cols data = true ->
  add_rows (Table cols acc) data = Ret (Table cols (acc ++ data)).
Proof.
  intros Hcols. destruct cols as [|c cols]; [contradiction|].
  revert acc. induction data as [|r data IH]; intros acc; simpl.
  - rewrite app_nil_r. reflexivity.
  - unfold add_row; simpl. destruct (Nat.eqb (length r) (S (length cols))); simpl;
      [|discriminate].
    intros H. rewrite IH by assumption. rewrite <- app_assoc. reflexivity.
Qed.

Lemma add_rows_misfit cols acc data :
  cols <> [] ->
  all_fit cols data = false ->
  exists msg, add_rows (Table cols acc) data = Raise (Exn ValueError msg).
Proof.
  intros Hcols. destruct cols as [|c cols]; [contradiction|].
  revert acc. induction data as [|r data IH]; intros acc; simpl; [discriminate|].
  unfold add_row; simpl. destruct (Nat.eqb (length r) (S (length cols))); simpl.
  - apply IH.
  - unfold incorrect_number. eauto.
Qed.

(** A table without field names that has rows: they are empty, and so
    must the next ones be. *)
Lemma add_rows_unnamed (a0 : row) acc data :
  length a0 = 0%nat ->
  if forallb (fun r => Nat.eqb (length r) 0) data
  then add_rows (Table [] (a0 :: acc)) data = Ret (Table [] ((a0 :: acc) ++ data))
  else exists msg, add_rows (Table [] (a0 :: acc)) data = Raise (Exn ValueError msg).
Proof.
  intros Ha0. revert acc. induction data as [|r data IH]; intros acc.
  - simpl. rewrite app_nil_r. reflexivity.
  - cbn [forallb add_rows]. unfold add_row, set_field_names, validate_field_names.
    cbn [field_names pt_rows and_then].
    rewrite generated_names_length, Ha0.
    destruct (Nat.eqb (length r) 0) eqn:E; cbn [andb and_then].
    + rewrite generated_names_distinct. cbn [and_then field_names pt_rows].
      apply Nat.eqb_eq in E. rewrite E. cbn [generated_names seq map].
      specialize (IH (acc ++ [r])).
      destruct (forallb _ data).
      * change ((a0 :: acc) ++ [r]) with (a0 :: (acc ++ [r])). rewrite IH.
        simpl. rewrite <- app_assoc. reflexivity.
      * change ((a0 :: acc) ++ [r]) with (a0 :: (acc ++ [r])). exact IH.
    + unfold incorrect_number. eauto.
Qed.

Lemma all_fit_generated (n : nat) (data : list row) :
  all_fit (generated_names n) data = forallb (fun r => Nat.eqb (length r) n) data.
Proof. unfold all_fit. rewrite generated_names_length. reflexivity. Qed.

Lemma add_first_row (r0 : row) :
  add_row (Table [] []) r0 = Ret (Table (generated_names (length r0)) [r0]).
Proof.
  unfold add_row, set_field_names, validate_field_names.
  cbn [field_names pt_rows and_then]. rewrite generated_names_distinct.
  reflexivity.
Qed.

(** The table that [print_table] builds under its [try]. *)
Lemma table_built (cols : list string) (r0 : row) (rows : list row) :
  let data := r0 :: rows in
  if distinct cols && all_fit (header cols data) data
  then built cols data = Ret (Table (header cols data) data)
  else exists msg,
         built cols data = Raise (Exn ValueError msg)
         /\ (distinct cols = false -> msg = "Field names must be unique").
Proof.
  intros data. subst data. unfold built, header. cbn [hd].
  destruct cols as [|c cols].
  - cbn [PrettyTable_init and_then distinct andb add_rows].
    rewrite add_first_row. cbn [and_then].
    rewrite all_fit_generated. cbn [forallb]. rewrite Nat.eqb_refl. cbn [andb].
    destruct (length r0) as [|k] eqn:Hk.
    + pose proof (add_rows_unnamed r0 [] rows Hk) as H. cbn [generated_names seq map].
      destruct (forallb _ _); [exact H|].
      destruct H as (msg & H). exists msg. split; [assumption | discriminate].
    + rewrite <- (all_fit_generated (S k)).
      assert (Hne : generated_names (S k) <> []) by discriminate.
      destruct (all_fit (generated_names (S k)) rows) eqn:Hfit.
      * exact (add_rows_fit _ [r0] rows Hne Hfit).
      * destruct (add_rows_misfit _ [r0] rows Hne Hfit) as (msg & H).
        exists msg. split; [assumption | discriminate].
  - cbn [PrettyTable_init]. unfold set_field_names, validate_field_names.
    cbn [field_names pt_rows and_then].
    destruct (distinct (c :: cols)) eqn:Hd; cbn [and_then andb].
    + assert (Hne : c :: cols <> []) by discriminate.
      destruct (all_fit (c :: cols) (r0 :: rows)) eqn:Hfit.
      * exact (add_rows_fit _ [] _ Hne Hfit).
      * destruct (add_rows_misfit _ [] _ Hne Hfit) as (msg & H).
        exists msg. split; [assumption | discriminate].
    + exists "Field names must be unique". split; reflexivity.
Qed.

Lemma print_table_nonempty get_string (r0 : row) rows cols (w : pg_world) :
  print_table get_string (Some (r0 :: rows)) cols w =
  match built cols (r0 :: rows) with
  | Ret t =>
      match get_string t with
      | Ret rendered => (Ret tt, printed [rendered] w)
      | Raise e => (Raise e, w)
      end
  | Raise e =>
      if value_error e then (Ret tt, printed [print_failure (exn_msg e)] w)
      else (Raise e, w)
  end.
Proof.
  unfold print_table, built, bind, try_except, and_then.
  destruct (PrettyTable_init cols) as [t0|e].
  - destruct (add_rows t0 (r0 :: rows)) as [t|e].
    + destruct (get_string t); reflexivity.
    + destruct (value_error e); reflexivity.
  - destruct (value_error e); reflexivity.
Qed.

(** ** The tabular printer *)

(** C8, as the code has it.  [print_table] changes nothing and returns
    when the data are None or the empty list.  Otherwise the table is
    built under the [try]: when
    the column names are not all different, or when some row has not one
    value per field (the fields are the column names or, without column
    names, those the library makes for the first row), the ValueError is
    caught, the one line printed is the diagnostic, and the call returns:
    no table.  When the table is built its rendering is printed; the
    rendering comes after the [try], so an exception of it leaves
    [print_table], with nothing printed. *)
Theorem print_table_cases
    (get_string : PrettyTable -> outcome string)
    (data : option (list row)) (column_names : list string) (w : pg_world) :
  let r := fst (print_table get_string data column_names w) in
  let w' := snd (print_table get_string data column_names w) in
  match data with
  | None | Some [] => r = Ret tt /\ w' = w
  | Some rows =>
      if distinct column_names && all_fit (header column_names rows) rows
      then match get_string (Table (header column_names rows) rows) with
           | Ret rendered => r = Ret tt /\ w' = printed [rendered] w
           | Raise e => r = Raise e /\ w' = w
           end
      else r = Ret tt
           /\ exists msg,
                w' = printed [print_failure msg] w
                /\ (distinct column_names = false ->
                    msg = "Field names must be unique")
  end.
Proof.
  destruct data as [[|r0 rows]|]; try (split; reflexivity).
  cbv zeta. rewrite print_table_nonempty.
  pose proof (table_built column_names r0 rows) as H. cbv zeta in H.
  destruct (distinct column_names && all_fit _ _).
  - rewrite H. destruct (get_string _); split; reflexivity.
  - destruct H as (msg & -> & Hmsg). cbn [value_error exn_cls exn_msg fst snd].
    split; [reflexivity|]. exists msg. split; [reflexivity | exact Hmsg].
Qed.

(** C8, as stated, fails: the shape of the rows alone does not decide.
    Two column names that are the same give the diagnostic though the row
    fits them, and without column names a table is printed though the row
    fits none. *)
Lemma print_table_shape_counterexample :
  let w := connected db_school [] in
  ~ shape_alone_decides sample_rendering (Some [[VInt 1; VInt 2]]) ["id"; "id"] w
  /\ ~ shape_alone_decides sample_rendering (Some [[VInt 1]]) [] w.
Proof.
  intros w. split.
  - intros (rendered & Hr & Hout). vm_compute in Hr, Hout.
    injection Hr as <-. discriminate Hout.
  - intros (msg & Hout). vm_compute in Hout. discriminate Hout.
Qed.

Example print_table_runs :
  let w := connected db_school [] in
  let out data column_names :=
    stdout (snd (print_table sample_rendering (Some data) column_names w)) in
  out [[VInt 1; VInt 2]] ["id"; "id"] = [print_failure "Field names must be unique"]
  /\ out [[VInt 1]; [VInt 2; VInt 3]] ["id"] =
       [print_failure "Row has incorrect number of values, (actual) 2!=1 (expected)"]
  /\ out [[VInt 1; VInt 2]] [] = ["Field 1 | Field 2 / 1 rows"]
  /\ out [[]; [VInt 1]] [] =
       [print_failure
          "Field name list has incorrect number of values, (actual) 1!=0 (expected)"].
Proof. vm_compute. repeat split; reflexivity. Qed.

(** ** The populator *)

Lemma for_range_raises (body : PG unit) (k m : nat) (w wk wf : pg_world) e :
  for_range k body w = (Ret tt, wk) ->
  body wk = (Raise e, wf) ->
  for_range (k + S m) body w = (Raise e, wf).
Proof.
  revert w. induction k as [|k IH]; intros w Hk Hbody; simpl in *.
  - unfold ret in Hk. inversion Hk. subst wk. unfold bind. rewrite Hbody. reflexivity.
  - unfold bind in *. destruct (body w) as [[[]|e0] w1]; [|discriminate].
    apply IH; assumption.
Qed.

Lemma for_each_raises {A : Type} (body : A -> PG unit) (before : list A) (x : A)
    (after : list A) (w wk wf : pg_world) e :
  for_each before body w = (Ret tt, wk) ->
  body x wk = (Raise e, wf) ->
  for_each (before ++ x :: after) body w = (Raise e, wf).
Proof.
  revert w. induction before as [|y before IH]; intros w Hk Hbody; simpl in *.
  - unfold ret in Hk. inversion Hk. subst wk. unfold bind. rewrite Hbody. reflexivity.
  - unfold bind in *. destruct (body y w) as [[[]|e0] w1]; [|discriminate].
    apply IH; assumption.
Qed.

Lemma insert_students_row_failure (w : pg_world) e :
  connection w = Open ->
  fst (pg_run INSERT_INTO_students (Some (student_tuple w)) (backend w)) = Raise e ->
  db_error e = true ->
  fst (insert_students_row w) = Raise e
  /\ stdout (snd (insert_students_row w)) = stdout w ++ [failure_message "insert students" e]
  /\ issued (snd (insert_students_row w)) =
       issued w ++ [(INSERT_INTO_students, Some (student_tuple w))].
Proof.
  intros Hopen Hrun He.
  assert (Heq : insert_students_row w =
                execute_query pg_run INSERT_INTO_students "insert students"
                  (Some (student_tuple w)) true false
                  (set_faker_seed
                     (faker_next (faker_next (faker_next (faker_seed w)))) w))
    by reflexivity.
  rewrite Heq. rewrite execute_query_open by assumption. simpl.
  destruct (pg_run INSERT_INTO_students (Some (student_tuple w)) (backend w))
    as [[r|e0] s]; simpl in Hrun; [discriminate|]. inversion Hrun. subst e0.
  rewrite He. repeat split.
Qed.

Lemma insert_scores_row_failure (student_id : value) (rest : row) (w : pg_world) e :
  connection w = Open ->
  fst (pg_run INSERT_INTO_scores (Some (score_tuple student_id w)) (backend w))
    = Raise e ->
  db_error e = true ->
  fst (insert_scores_row (student_id :: rest) w) = Raise e
  /\ stdout (snd (insert_scores_row (student_id :: rest) w)) =
       stdout w ++ [failure_message "insert scores" e]
  /\ issued (snd (insert_scores_row (student_id :: rest) w)) =
       issued w ++ [(INSERT_INTO_scores, Some (score_tuple student_id w))].
Proof.
  intros Hopen Hrun He.
  assert (Heq : insert_scores_row (student_id :: rest) w =
                execute_query pg_run INSERT_INTO_scores "insert scores"
                  (Some (score_tuple student_id w)) true false
                  (set_faker_seed (faker_next (faker_seed w)) w))
    by reflexivity.
  rewrite Heq. rewrite execute_query_open by assumption. simpl.
  destruct (pg_run INSERT_INTO_scores (Some (score_tuple student_id w)) (backend w))
    as [[res|e0] s]; simpl in Hrun; [discriminate|]. inversion Hrun. subst e0.
  rewrite He. repeat split.
Qed.

Lemma insert_scores_loop (rows : list row) (s : pg_server) (w : pg_world) :
  connection w = Open ->
  pg_run SELECT_id_FROM_students None (backend w) = (Ret (selected rows), s) ->
  insert_scores w =
  bind (for_each rows insert_scores_row)
       (fun _ => print "Scores table filled successfully!")
       (identifiers_fetched rows s w).
Proof.
  intros Hopen Hrun. unfold insert_scores. unfold bind at 1.
  rewrite execute_query_return_cursor_open by assumption. rewrite Hrun.
  unfold bind at 1. unfold cursor_fetchall, printed, sent; simpl.
  rewrite nth_error_snoc; simpl.
  unfold bind at 1. unfold cursor_close; simpl.
  rewrite list_set_snoc, nth_error_snoc; simpl. rewrite list_set_snoc.
  reflexivity.
Qed.

(** C1, as the code has it.  Both loops of the populator call
    [execute_query] with [raise_exc] set: when the insert of a row fails
    with an operational, programming or integrity error, after the rows
    before it were inserted, the diagnostic of that insert is printed, the
    exception is re-raised and leaves [insert_students], respectively
    [insert_scores], in the world that insert left: no statement is sent
    for the rows after it and the last line is not printed. *)
Theorem populator_stops_at_failed_insert
    (n : Z) (k : nat) (rows before after : list row) (student_id : value) (rest : row)
    (s : pg_server)
    (w wk : pg_world) (e : exn) :
  connection w = Open ->
  connection wk = Open ->
  db_error e = true ->
  ((k < Z.to_nat n)%nat ->
   for_range k insert_students_row w = (Ret tt, wk) ->
   fst (pg_run INSERT_INTO_students (Some (student_tuple wk)) (backend wk)) = Raise e ->
   let wf := snd (insert_students_row wk) in
   insert_students n w = (Raise e, wf)
   /\ stdout wf = stdout wk ++ [failure_message "insert students" e]
   /\ issued wf = issued wk ++ [(INSERT_INTO_students, Some (student_tuple wk))])
  /\
  (pg_run SELECT_id_FROM_students None (backend w) = (Ret (selected rows), s) ->
   rows = before ++ (student_id :: rest) :: after ->
   for_each before insert_scores_row (identifiers_fetched rows s w) = (Ret tt, wk) ->
   fst (pg_run INSERT_INTO_scores (Some (score_tuple student_id wk)) (backend wk)) = Raise e ->
   let wf := snd (insert_scores_row (student_id :: rest) wk) in
   insert_scores w = (Raise e, wf)
   /\ stdout wf = stdout wk ++ [failure_message "insert scores" e]
   /\ issued wf = issued wk ++ [(INSERT_INTO_scores, Some (score_tuple student_id wk))]).
Proof.
  intros Hopen Hopenk He. split.
  - intros Hk Hloop Hrun wf.
    destruct (insert_students_row_failure wk e Hopenk Hrun He) as (Hr & Hout & Hiss).
    split; [|split; assumption].
    unfold insert_students, bind.
    replace (Z.to_nat n) with (k + S (Z.to_nat n - S k))%nat by lia.
    rewrite (for_range_raises insert_students_row k _ w wk wf e Hloop); [reflexivity|].
    subst wf. destruct (insert_students_row wk) as [o w1]. simpl in *. subst o. reflexivity.
  - intros Hsel Hrows Hloop Hrun wf.
    destruct (insert_scores_row_failure student_id rest wk e Hopenk Hrun He) as (Hr & Hout & Hiss).
    split; [|split; assumption].
    rewrite (insert_scores_loop rows s w Hopen Hsel). unfold bind. rewrite Hrows at 1.
    rewrite (for_each_raises insert_scores_row before (student_id :: rest) after _ wk wf e);
      [reflexivity | subst rows; assumption |].
    subst wf. destruct (insert_scores_row (student_id :: rest) wk) as [o w1]. simpl in *. subst o. reflexivity.
Qed.

Lemma populator_stops_at_failed_insert_witness :
  let w := connected db_created [None; Some connection_lost] in
  let w2 := connected db_school [None; None; Some connection_lost] in
  fst (insert_students 3 w) = Raise connection_lost
  /\ stdout (snd (insert_students 3 w)) =
       [failure_message "insert students" connection_lost]
  /\ fst (insert_scores w2) = Raise connection_lost.
Proof.
  intros w w2.
  pose (wk := snd (for_range 1 insert_students_row w)).
  pose (s2 := Server db_school [None; Some connection_lost]).
  pose (rows := [[VInt 1]; [VInt 2]; [VInt 3]]).
  pose (wk2 := snd (for_each [[VInt 1]] insert_scores_row (identifiers_fetched rows s2 w2))).
  destruct (populator_stops_at_failed_insert 3 1 [] [] [] VNull [] s2 w wk connection_lost
              eq_refl eq_refl eq_refl) as [H1 _].
  destruct (populator_stops_at_failed_insert 3 1 rows [[VInt 1]] [[VInt 3]] (VInt 2) []
              s2 w2 wk2 connection_lost eq_refl eq_refl eq_refl) as [_ H2].
  specialize (H1 ltac:(vm_compute; lia) eq_refl eq_refl).
  specialize (H2 eq_refl eq_refl eq_refl eq_refl).
  destruct H1 as (H1 & H1out & _). destruct H2 as (H2 & _).
  split; [rewrite H1; reflexivity|]. split; [rewrite H1; exact H1out|].
  rewrite H2. reflexivity.
Defined.

(** C1, as stated, fails: with the second of three inserts failed by a
    lost connection, [insert_students] raises after two statements and its
    last line is the diagnostic. *)
Lemma populator_continues_counterexample :
  let w := connected db_created [None; Some connection_lost] in
  fst (insert_students 3 w) = Raise connection_lost
  /\ stdout (snd (insert_students 3 w)) =
       [failure_message "insert students" connection_lost]
  /\ length (issued (snd (insert_students 3 w))) = 2%nat
  /\ ~ continues_past_failures 3 w.
Proof.
  intros w. split; [reflexivity|]. split; [reflexivity|]. split; [reflexivity|].
  unfold continues_past_failures.
  destruct (insert_students 3 w) as [r w'] eqn:Hrun.
  intros [Hr _]. subst r.
  apply (f_equal fst) in Hrun. discriminate Hrun.
Qed.

(** ** Runs of the entry points *)

(** [main] with the second insert of students failed: the exception
    leaves the populator and [main] stops on its critical error. *)
Example main_stops_on_failed_insert :
  let w := at_start db_empty env_ok [None; None; None; Some connection_lost] in
  let run := main (fun _ => Ret "table") w in
  fst run = Ret tt
  /\ stdout (snd run) =
       ["Connection to PostgreSQL DB successful!";
        success_message "create students table";
        success_message "create scores table";
        failure_message "insert students" connection_lost;
        "Critical error occurred!"]
  /\ connection (snd run) = Closed
  /\ length (students_of (database_of (snd run))) = 1%nat.
Proof. repeat split. Qed.

(** [clear_tables] on a school: one statement, both tables empty, the
    sequence restarted, the connection closed. *)
Example clear_tables_run :
  let run := clear_tables (at_start db_school env_ok []) in
  fst run = Ret tt
  /\ issued (snd run) = [(TRUNCATE_students, None)]
  /\ database_of (snd run) = Database (Some []) (Some []) 1 3
  /\ connection (snd run) = Closed.
Proof. repeat split. Qed.

(** [clear_tables] on a server that takes no write: the exception, of a
    class the executor does not handle, leaves [clear_tables]. *)
Example clear_tables_read_only :
  let run := clear_tables (at_start db_school env_ok [Some read_only]) in
  fst run = Raise read_only
  /\ database_of (snd run) = db_school
  /\ connection (snd run) = Open.
Proof. repeat split. Qed.

(** [clear_tables] without DB_PORT: nothing happens. *)
Example clear_tables_without_connection :
  let w := at_start db_school [("POSTGRES_DB", "homework")] [] in
  clear_tables w = (Ret tt, w).
Proof. reflexivity. Qed.

(** * Further properties of the program *)

(** ** The entry points *)

(** X1. With one of the five variables unset, [main] and [clear_tables]
    return at once: nothing is printed, no connection is attempted, no
    statement is sent. *)
Theorem entry_points_need_every_credential
    (get_string : PrettyTable -> outcome string) (name : string) (w : pg_world) :
  In name credentials ->
  assoc name (environ w) = None ->
  main get_string w = (Ret tt, w) /\ clear_tables w = (Ret tt, w).
Proof.
  intros Hin Hnone.
  assert (Hc : connection_from_environ w = (Ret None, w)).
  { unfold connection_from_environ, bind, environ_get, create_connection.
    simpl in Hin.
    destruct Hin as [<- | [<- | [<- | [<- | [<- | []]]]]]; rewrite Hnone;
      destruct (assoc "POSTGRES_DB" (environ w)),
        (assoc "POSTGRES_USER" (environ w)),
        (assoc "POSTGRES_PASSWORD" (environ w)),
        (assoc "DB_HOST" (environ w)),
        (assoc "DB_PORT" (environ w)); try discriminate; reflexivity. }
  unfold main, clear_tables, bind. rewrite Hc. split; reflexivity.
Qed.

Lemma entry_points_need_every_credential_witness :
  let w := at_start db_school [("POSTGRES_DB", "homework"); ("DB_HOST", "localhost")]
                    [] in
  In "DB_PORT" credentials
  /\ assoc "DB_PORT" (environ w) = None
  /\ main (fun _ => Ret "table") w = (Ret tt, w)
  /\ clear_tables w = (Ret tt, w).
Proof.
  intros w.
  assert (Hin : In "DB_PORT" credentials) by (simpl; tauto).
  split; [exact Hin|]. split; [reflexivity|].
  exact (entry_points_need_every_credential (fun _ => Ret "table") "DB_PORT" w Hin eq_refl).
Defined.

(** X2. When the first part of [main] raises, an operational, programming
    or integrity error makes [main] close the connection, print its
    critical error and return, in the world that part left but for these: no
    statement of the second part is sent.  An exception of another class
    leaves [main], with the connection as it was. *)
Theorem main_stops_on_setup_failure
    (get_string : PrettyTable -> outcome string) (w w0 w1 : pg_world) (c : unit) (e : exn) :
  connection_from_environ w = (Ret (Some c), w0) ->
  populate_tables (set_autocommit true w0) = (Raise e, w1) ->
  main get_string w =
    if db_error e
    then (Ret tt, printed ["Critical error occurred!"] (set_connection Closed w1))
    else (Raise e, w1).
Proof.
  intros Hc Hp. unfold main. unfold bind at 1. rewrite Hc.
  unfold bind at 1. unfold connection_set_autocommit.
  unfold bind at 1. unfold try_except.
  change (create_students_table;; create_scores_table;; insert_students 10;;
          insert_scores;; ret true) with populate_tables.
  rewrite Hp. destruct (db_error e); reflexivity.
Qed.

Lemma populate_tables_true (w w1 : pg_world) (b : bool) :
  populate_tables w = (Ret b, w1) -> b = true.
Proof.
  unfold populate_tables, bind, ret.
  destruct (create_students_table w) as [[[]|e] wa]; [|discriminate].
  destruct (create_scores_table wa) as [[[]|e] wb]; [|discriminate].
  destruct (insert_students 10 wb) as [[[]|e] wc]; [|discriminate].
  destruct (insert_scores wc) as [[[]|e] wd]; [|discriminate].
  intros H. inversion H. reflexivity.
Qed.

(** [main], once it has its connection, in its two parts. *)
Lemma main_in_two_parts
    (get_string : PrettyTable -> outcome string) (w w0 : pg_world) (c : unit) :
  connection_from_environ w = (Ret (Some c), w0) ->
  main get_string w =
  match populate_tables (set_autocommit true w0) with
  | (Ret _, w1) => serve get_string w1
  | (Raise e, w1) =>
      if db_error e
      then (Ret tt, printed ["Critical error occurred!"] (set_connection Closed w1))
      else (Raise e, w1)
  end.
Proof.
  intros Hc. unfold main. unfold bind at 1. rewrite Hc.
  unfold bind at 1. unfold connection_set_autocommit.
  unfold bind at 1. unfold try_except.
  change (create_students_table;; create_scores_table;; insert_students 10;;
          insert_scores;; ret true) with populate_tables.
  destruct (populate_tables (set_autocommit true w0)) as [[b|e] w1] eqn:Hp.
  - rewrite (populate_tables_true _ _ _ Hp). reflexivity.
  - destruct (db_error e); reflexivity.
Qed.

Lemma closes_last {A : Type} (m : PG A) (w : pg_world) :
  fst (bind m (fun _ => connection_close) w) = Ret tt ->
  connection (snd (bind m (fun _ => connection_close) w)) = Closed.
Proof.
  unfold bind. destruct (m w) as [[a|e] w1]; [reflexivity | discriminate].
Qed.

Lemma bind_returns {A B : Type} (m : PG A) (k : A -> PG B) (w : pg_world) b :
  fst (bind m k w) = Ret b ->
  exists a w1, m w = (Ret a, w1) /\ bind m k w = k a w1.
Proof.
  unfold bind. destruct (m w) as [[a|e] w1]; [eauto | discriminate].
Qed.

Lemma serve_closes (get_string : PrettyTable -> outcome string) (w : pg_world) :
  fst (serve get_string w) = Ret tt ->
  connection (snd (serve get_string w)) = Closed.
Proof.
  unfold serve. intros Hret.
  repeat (match goal with
          | H : fst (bind ?m ?k ?w) = Ret tt |- connection (snd (bind ?m ?k ?w)) = _ =>
              first
                [ exact (closes_last m w H)
                | let a := fresh "a" in let w' := fresh "w" in
                  let Hm := fresh "Hm" in let Hk := fresh "Hk" in
                  destruct (bind_returns m k w tt H) as (a & w' & Hm & Hk);
                  rewrite Hk in H |- *; clear Hm Hk; cbv beta in H |- * ]
          end).
Qed.

(** X3. Whenever [main] has obtained a connection and returns, it has
    closed it. *)
Theorem main_closes_its_connection
    (get_string : PrettyTable -> outcome string) (w w0 : pg_world) (c : unit) :
  connection_from_environ w = (Ret (Some c), w0) ->
  fst (main get_string w) = Ret tt ->
  connection (snd (main get_string w)) = Closed.
Proof.
  intros Hc. rewrite (main_in_two_parts get_string w w0 c Hc).
  destruct (populate_tables (set_autocommit true w0)) as [[b|e] w1].
  - apply serve_closes.
  - destruct (db_error e); [reflexivity | discriminate].
Qed.

Lemma main_stops_on_setup_failure_witness :
  let w := at_start db_empty env_ok [None; None; None; Some connection_lost] in
  exists w1,
    populate_tables (set_autocommit true (snd (connection_from_environ w)))
      = (Raise connection_lost, w1)
    /\ main (fun _ => Ret "table") w =
         (Ret tt, printed ["Critical error occurred!"] (set_connection Closed w1)).
Proof.
  intros w.
  exists (snd (populate_tables (set_autocommit true (snd (connection_from_environ w))))).
  assert (Hp : populate_tables (set_autocommit true (snd (connection_from_environ w)))
               = (Raise connection_lost,
                  snd (populate_tables
                         (set_autocommit true (snd (connection_from_environ w))))))
    by (vm_compute; reflexivity).
  split; [exact Hp|].
  exact (main_stops_on_setup_failure (fun _ => Ret "table") w _ _ tt connection_lost
           eq_refl Hp).
Defined.

Lemma main_closes_its_connection_witness :
  let w := at_start db_empty env_ok [] in
  fst (main (fun _ => Ret "table") w) = Ret tt
  /\ connection (snd (main (fun _ => Ret "table") w)) = Closed.
Proof.
  intros w.
  assert (Hret : fst (main (fun _ => Ret "table") w) = Ret tt) by (vm_compute; reflexivity).
  split; [exact Hret|].
  exact (main_closes_its_connection (fun _ => Ret "table") w
           (snd (connection_from_environ w)) tt eq_refl Hret).
Defined.

(** ** More on the executor *)

Section ExecutorEdges.
Context {query params server : Type}.
Variable run : query -> option params -> server -> outcome result * server.

(** X4. An exception that is not an operational, programming or integrity
    error passes through both executors whatever [raise_exc] is, and no
    diagnostic is printed. *)
Theorem executors_let_other_exceptions_through
    (q : query) (name : string) (ps : option params)
    (raise_exc print_success : bool) (w : world query params server) (e : exn) :
  connection w = Open ->
  fst (run q ps (backend w)) = Raise e ->
  db_error e = false ->
  fst (execute_query run q name ps raise_exc print_success w) = Raise e
  /\ stdout (snd (execute_query run q name ps raise_exc print_success w)) = stdout w
  /\ fst (execute_query_return_cursor run q name ps raise_exc print_success w) = Raise e
  /\ stdout (snd (execute_query_return_cursor run q name ps raise_exc print_success w))
     = stdout w.
Proof.
  intros Hopen Hrun He.
  rewrite execute_query_open, execute_query_return_cursor_open by assumption.
  destruct (run q ps (backend w)) as [[r|e0] s]; simpl in Hrun; [discriminate|].
  inversion Hrun. subst e0. rewrite He. repeat split.
Qed.

(** X5. [execute_query_return_cursor] closes the cursor it opened only
    when it re-raises: when it swallows the failure and returns None, and
    when an exception of another class passes through, the cursor is left
    open, as it was made. *)
Theorem swallowed_failure_leaves_cursor_open
    (q : query) (name : string) (ps : option params)
    (raise_exc print_success : bool) (w : world query params server) (e : exn) :
  connection w = Open ->
  fst (run q ps (backend w)) = Raise e ->
  raise_exc = false \/ db_error e = false ->
  nth_error
    (cursors (snd (execute_query_return_cursor run q name ps raise_exc print_success w)))
    (length (cursors w)) = Some new_cursor.
Proof.
  intros Hopen Hrun Hcase.
  rewrite execute_query_return_cursor_open by assumption.
  destruct (run q ps (backend w)) as [[r|e0] s]; simpl in Hrun; [discriminate|].
  inversion Hrun. subst e0.
  destruct (db_error e), raise_exc; simpl; try apply nth_error_snoc;
    destruct Hcase; discriminate.
Qed.

End ExecutorEdges.

Lemma executors_let_other_exceptions_through_witness :
  let w := connected db_school [Some read_only] in
  connection w = Open
  /\ fst (execute_query pg_run TRUNCATE_students "clear tables" None false true w)
     = Raise read_only
  /\ stdout (snd (execute_query pg_run TRUNCATE_students "clear tables" None false true w))
     = [].
Proof.
  intros w.
  pose proof (executors_let_other_exceptions_through pg_run TRUNCATE_students
                "clear tables" None false true w read_only eq_refl eq_refl eq_refl)
    as (H1 & H2 & _).
  split; [reflexivity|]. split; assumption.
Defined.

Lemma swallowed_failure_leaves_cursor_open_witness :
  let w := connected db_empty [] in
  connection w = Open
  /\ fst (execute_query_return_cursor pg_run SELECT_id_FROM_students
            "select students' identifiers" None false true w) = Ret None
  /\ nth_error
       (cursors (snd (execute_query_return_cursor pg_run SELECT_id_FROM_students
                        "select students' identifiers" None false true w))) 0
     = Some new_cursor.
Proof.
  intros w. split; [reflexivity|]. split; [reflexivity|].
  exact (swallowed_failure_leaves_cursor_open pg_run SELECT_id_FROM_students
           "select students' identifiers" None false true w
           (undefined_table "students") eq_refl eq_refl (or_introl eq_refl)).
Defined.

(** ** More on the populator *)

(** X6. When the SELECT of [insert_scores] fails with an operational,
    programming or integrity error, [insert_scores] does not raise: it
    returns after the diagnostic, with no insert sent, no last line and the
    database as it was. *)
Theorem insert_scores_skips_on_failed_select (w : pg_world) (e : exn) :
  connection w = Open ->
  fst (pg_run SELECT_id_FROM_students None (backend w)) = Raise e ->
  db_error e = true ->
  fst (insert_scores w) = Ret tt
  /\ stdout (snd (insert_scores w)) =
       stdout w ++ [failure_message "select students' identifiers" e]
  /\ issued (snd (insert_scores w)) = issued w ++ [(SELECT_id_FROM_students, None)]
  /\ database_of (snd (insert_scores w)) = database_of w.
Proof.
  intros Hopen Hrun He.
  unfold insert_scores. unfold bind.
  rewrite execute_query_return_cursor_open by assumption.
  destruct (pg_run_cases SELECT_id_FROM_students None (backend w))
    as [(e0 & fs & Hf & Hr) | (Hq & Hr)]; rewrite Hr in *; simpl in Hrun.
  - inversion Hrun. subst e0. rewrite He. repeat split.
  - unfold database_of.
    change (pg_statement SELECT_id_FROM_students None (tables (backend w)))
      with (select_ids (tables (backend w))) in *.
    destruct (select_ids (tables (backend w))) as [[r|e1] db1] eqn:Hsel;
      cbn [fst snd] in *; [discriminate|].
    inversion Hrun. subst e1. rewrite He.
    unfold select_ids in Hsel.
    destruct (students (tables (backend w))); inversion Hsel. repeat split.
Qed.

Lemma insert_scores_skips_on_failed_select_witness :
  let w := connected db_school [Some connection_lost] in
  connection w = Open
  /\ fst (insert_scores w) = Ret tt
  /\ database_of (snd (insert_scores w)) = db_school.
Proof.
  intros w.
  pose proof (insert_scores_skips_on_failed_select w connection_lost
                eq_refl eq_refl eq_refl) as (H1 & _ & _ & H4).
  split; [reflexivity|]. split; assumption.
Defined.

(** ** What the mutators change *)

Lemma answered_statement q ps (s : pg_server) res :
  fst (pg_run q ps s) = Ret res ->
  fst (pg_statement q ps (tables s)) = Ret res
  /\ tables (snd (pg_run q ps s)) = snd (pg_statement q ps (tables s)).
Proof.
  destruct (pg_run_cases q ps s) as [(e & fs & _ & ->) | (_ & ->)]; simpl;
    [discriminate | auto].
Qed.

Lemma mutators_backend (student_id new_group new_score group : Z) (w : pg_world) :
  connection w = Open ->
  backend (snd (update_group student_id new_group w)) =
    snd (pg_run UPDATE_students_SET_group (Some [VInt new_group; VInt student_id])
                (backend w))
  /\ backend (snd (update_score student_id new_score w)) =
       snd (pg_run UPDATE_scores_SET_score (Some [VInt new_score; VInt student_id])
                   (backend w))
  /\ backend (snd (delete_group group w)) =
       snd (pg_run DELETE_FROM_students (Some [VInt group]) (backend w)).
Proof.
  intros Hopen.
  rewrite update_group_open, update_score_open, delete_group_open by assumption.
  repeat split;
    match goal with |- context [pg_run ?q ?ps ?s] =>
      destruct (pg_run q ps s) as [[r|e] s1]; [|destruct (db_error e)]; reflexivity
    end.
Qed.

(** X8. When the statement of [delete_group] is answered, the students
    left are those of the other groups, the scores left are those of no
    student of the group, and the sequence of identifiers is not moved. *)
Theorem delete_group_removes_group_and_its_scores (group : Z) (w : pg_world) res :
  connection w = Open ->
  fst (pg_run DELETE_FROM_students (Some [VInt group]) (backend w)) = Ret res ->
  let db := database_of w in
  let db' := database_of (snd (delete_group group w)) in
  (forall st, In st (students_of db') <->
              In st (students_of db) /\ st_group st <> group)
  /\ group_members db' group = []
  /\ (forall sc, In sc (scores_of db') <->
                 In sc (scores_of db)
                 /\ forall st, In st (group_members db group) ->
                               st_id st <> sc_student_id sc)
  /\ students_id_seq db' = students_id_seq db.
Proof.
  intros Hopen Hrun db db'. subst db db'. unfold database_of.
  destruct (mutators_backend 0 0 0 group w Hopen) as (_ & _ & ->).
  destruct (answered_statement _ _ _ _ Hrun) as [Hst ->]. simpl in *.
  unfold delete_students, group_members, students_of, scores_of in *.
  destruct (tables (backend w)) as [st sc seq uu]; simpl in *.
  destruct st as [l|]; simpl in *; [|discriminate].
  assert (Hkept : forall s, In s (filter (fun s => negb (st_group s =? group)) l) <->
                            In s l /\ st_group s <> group).
  { intros s. rewrite filter_In, negb_true_iff, Z.eqb_neq. tauto. }
  repeat split; try (apply Hkept; assumption).
  - apply filter_none. intros s Hs. apply Hkept in Hs.
    apply Z.eqb_neq. tauto.
  - destruct sc as [ls|]; simpl in *; [|contradiction].
    apply filter_In in H. tauto.
  - destruct sc as [ls|]; simpl in *; [|contradiction].
    apply filter_In in H. destruct H as [_ Hk]. apply negb_true_iff in Hk.
    intros s Hs Hid.
    assert (existsb (fun s0 => st_id s0 =? sc_student_id sc0)
              (filter (fun s0 => st_group s0 =? group) l) = true)
      by (apply existsb_exists; exists s; split; [assumption | apply Z.eqb_eq; assumption]).
    congruence.
  - intros [Hin Hno]. destruct sc as [ls|]; simpl in *; [|contradiction].
    apply filter_In. split; [assumption|]. apply negb_true_iff.
    destruct (existsb _ _) eqn:E; [|reflexivity].
    apply existsb_exists in E. destruct E as (s & Hs & Hid). apply Z.eqb_eq in Hid.
    destruct (Hno s Hs Hid).
Qed.

Lemma update_permutation {A : Type} (p : A -> bool) (f : A -> A) (l : list A) :
  Permutation (filter (fun x => negb (p x)) l ++ map f (filter p l))
              (map (fun x => if p x then f x else x) l).
Proof.
  induction l as [|x l IH]; simpl; [constructor|].
  destruct (p x); simpl.
  - apply Permutation_sym, Permutation_cons_app, Permutation_sym, IH.
  - constructor. exact IH.
Qed.

(** X9. When the statement of [update_group] is answered, the students
    are those there were, those of the identifier now in the new group
    and the others as they were; in which order the table then gives them
    is not said.  The scores are untouched. *)
Theorem update_group_moves_the_student
    (student_id new_group : Z) (w : pg_world) res :
  connection w = Open ->
  fst (pg_run UPDATE_students_SET_group (Some [VInt new_group; VInt student_id])
              (backend w)) = Ret res ->
  let db := database_of w in
  let db' := database_of (snd (update_group student_id new_group w)) in
  Permutation (students_of db')
              (map (regrouped student_id new_group) (students_of db))
  /\ (forall st, In st (students_of db') -> st_id st = student_id ->
                 st_group st = new_group)
  /\ (forall st, st_id st <> student_id ->
                 (In st (students_of db') <-> In st (students_of db)))
  /\ scores db' = scores db.
Proof.
  intros Hopen Hrun db db'. subst db db'. unfold database_of.
  destruct (mutators_backend student_id new_group 0 0 w Hopen) as (-> & _ & _).
  destruct (answered_statement _ _ _ _ Hrun) as [Hst ->]. simpl in *.
  unfold update_students_group, students_of in *.
  destruct (tables (backend w)) as [st sc seq uu]; simpl in *.
  destruct st as [l|]; simpl in *; [|discriminate].
  destruct (int4 new_group); simpl in *; [|discriminate].
  assert (Hperm : Permutation
            (filter (fun s => negb (st_id s =? student_id)) l ++
             map (fun s => Student (st_id s) (st_name s) (st_birth_date s) new_group)
                 (filter (fun s => st_id s =? student_id) l))
            (map (regrouped student_id new_group) l))
    by exact (update_permutation (fun s => st_id s =? student_id) _ l).
  assert (Hin : forall s,
            In s (filter (fun s => negb (st_id s =? student_id)) l ++
                  map (fun s => Student (st_id s) (st_name s) (st_birth_date s) new_group)
                      (filter (fun s => st_id s =? student_id) l)) <->
            exists s0, regrouped student_id new_group s0 = s /\ In s0 l).
  { intros s. rewrite <- in_map_iff. split; apply Permutation_in;
      [exact Hperm | apply Permutation_sym; exact Hperm]. }
  split; [exact Hperm | split; [|split]].
  - intros s Hs Hid. apply Hin in Hs. destruct Hs as (s0 & <- & _).
    unfold regrouped in *.
    destruct (st_id s0 =? student_id) eqn:E; [reflexivity|].
    apply Z.eqb_neq in E. contradiction.
  - intros s Hid. rewrite Hin. unfold regrouped. split.
    + intros (s0 & <- & Hs0). destruct (st_id s0 =? student_id) eqn:E; [|assumption].
      apply Z.eqb_eq in E. simpl in Hid. contradiction.
    + intros Hs. exists s. split; [|assumption].
      apply Z.eqb_neq in Hid. rewrite Hid. reflexivity.
  - reflexivity.
Qed.

(** X10. When the statement of [update_score] is answered, the scores are
    those there were, every score of the student now with the new value
    and the others as they were; in which order the table then gives them
    is not said.  The students are untouched. *)
Theorem update_score_sets_every_score_of_the_student
    (student_id new_score : Z) (w : pg_world) res :
  connection w = Open ->
  fst (pg_run UPDATE_scores_SET_score (Some [VInt new_score; VInt student_id])
              (backend w)) = Ret res ->
  let db := database_of w in
  let db' := database_of (snd (update_score student_id new_score w)) in
  Permutation (scores_of db')
              (map (rescored student_id new_score) (scores_of db))
  /\ (forall sc, In sc (scores_of db') -> sc_student_id sc = student_id ->
                 sc_score sc = new_score)
  /\ (forall sc, sc_student_id sc <> student_id ->
                 (In sc (scores_of db') <-> In sc (scores_of db)))
  /\ students db' = students db.
Proof.
  intros Hopen Hrun db db'. subst db db'. unfold database_of.
  destruct (mutators_backend student_id 0 new_score 0 w Hopen) as (_ & -> & _).
  destruct (answered_statement _ _ _ _ Hrun) as [Hst ->]. simpl in *.
  unfold update_scores_score, scores_of in *.
  destruct (tables (backend w)) as [st sc seq uu]; simpl in *.
  destruct sc as [l|]; simpl in *; [|discriminate].
  destruct (int4 new_score); simpl in *; [|discriminate].
  assert (Hperm : Permutation
            (filter (fun s => negb (sc_student_id s =? student_id)) l ++
             map (fun s => Score (sc_id s) (sc_student_id s) new_score)
                 (filter (fun s => sc_student_id s =? student_id) l))
            (map (rescored student_id new_score) l))
    by exact (update_permutation (fun s => sc_student_id s =? student_id) _ l).
  assert (Hin : forall s,
            In s (filter (fun s => negb (sc_student_id s =? student_id)) l ++
                  map (fun s => Score (sc_id s) (sc_student_id s) new_score)
                      (filter (fun s => sc_student_id s =? student_id) l)) <->
            exists s0, rescored student_id new_score s0 = s /\ In s0 l).
  { intros s. rewrite <- in_map_iff. split; apply Permutation_in;
      [exact Hperm | apply Permutation_sym; exact Hperm]. }
  split; [exact Hperm | split; [|split]].
  - intros s Hs Hid. apply Hin in Hs. destruct Hs as (s0 & <- & _).
    unfold rescored in *.
    destruct (sc_student_id s0 =? student_id) eqn:E; [reflexivity|].
    apply Z.eqb_neq in E. contradiction.
  - intros s Hid. rewrite Hin. unfold rescored. split.
    + intros (s0 & <- & Hs0). destruct (sc_student_id s0 =? student_id) eqn:E;
        [|assumption].
      apply Z.eqb_eq in E. simpl in Hid. contradiction.
    + intros Hs. exists s. split; [|assumption].
      apply Z.eqb_neq in Hid. rewrite Hid. reflexivity.
  - reflexivity.
Qed.

(** ** What the populator inserts *)

Lemma faker_random_int_bounds (lo hi s : Z) :
  lo <= hi -> lo <= lo + s mod (hi - lo + 1) <= hi.
Proof.
  intros H. pose proof (Z.mod_pos_bound s (hi - lo + 1)). lia.
Qed.

Lemma quiet_step (n : nat) (fs : list (option exn)) :
  forallb is_None (firstn (S n) fs) = true ->
  hd None fs = None /\ forallb is_None (firstn n (tl fs)) = true.
Proof.
  destruct fs as [|[e|] fs]; cbn [firstn forallb hd tl is_None andb].
  - destruct n; auto.
  - discriminate.
  - auto.
Qed.

Lemma existsb_fresh {A : Type} (key : A -> Z) (l : list A) (next : Z) :
  (forall s, In s l -> key s < next) ->
  existsb (fun s => key s =? next) l = false.
Proof.
  intros H. destruct (existsb (fun s => key s =? next) l) eqn:E; [|reflexivity].
  apply existsb_exists in E. destruct E as (s & Hs & Hid). apply Z.eqb_eq in Hid.
  specialize (H s Hs). lia.
Qed.

Lemma int4_bounds (n : Z) : int4 n = true <-> -2147483648 <= n <= 2147483647.
Proof. unfold int4. rewrite andb_true_iff, !Z.leb_le. tauto. Qed.

(** One turn of the loop of [insert_students], when nothing fails. *)
Lemma insert_students_row_inserts (w : pg_world) (l : list student) :
  connection w = Open ->
  hd None (faults (backend w)) = None ->
  students (database_of w) = Some l ->
  (forall s, In s l -> st_id s < students_id_seq (database_of w)) ->
  int4 (students_id_seq (database_of w)) = true ->
  exists n d g,
    1 <= g <= 10
    /\ fst (insert_students_row w) = Ret tt
    /\ connection (snd (insert_students_row w)) = Open
    /\ stdout (snd (insert_students_row w)) = stdout w
    /\ faults (backend (snd (insert_students_row w))) = tl (faults (backend w))
    /\ database_of (snd (insert_students_row w)) =
         Database (Some (l ++ [Student (students_id_seq (database_of w)) n d g]))
                  (scores (database_of w))
                  (students_id_seq (database_of w) + 1)
                  (uuid_source (database_of w)).
Proof.
  intros Hopen Hq Hl Hfresh Hseq.
  assert (Heq : insert_students_row w =
                execute_query pg_run INSERT_INTO_students "insert students"
                  (Some (student_tuple w)) true false
                  (set_faker_seed
                     (faker_next (faker_next (faker_next (faker_seed w)))) w))
    by reflexivity.
  rewrite Heq. clear Heq. rewrite execute_query_open by assumption.
  cbn [backend set_faker_seed]. rewrite pg_run_reaches by assumption.
  unfold database_of in *.
  set (s1 := faker_next (faker_seed w)). set (s2 := faker_next s1).
  set (s3 := faker_next s2).
  pose proof (faker_random_int_bounds 1 10 s3 ltac:(lia)) as Hg.
  exists (fstring ["Student "; str_int s1]), (693596 + s2 mod 42000),
    (1 + s3 mod (10 - 1 + 1)).
  split; [exact Hg|].
  change (pg_statement INSERT_INTO_students (Some (student_tuple w)) (tables (backend w)))
    with (insert_student (fstring ["Student "; str_int s1]) (693596 + s2 mod 42000)
            (1 + s3 mod (10 - 1 + 1)) (tables (backend w))).
  unfold insert_student. rewrite Hl.
  assert (Hg4 : int4 (1 + s3 mod (10 - 1 + 1)) = true) by (apply int4_bounds; lia).
  rewrite Hg4, Hseq. cbn [andb negb].
  rewrite (existsb_fresh st_id l _ Hfresh).
  cbn [fst snd]. unfold printed, sent, set_students.
  cbn [stdout connection backend faults tables set_stdout set_faker_seed
       students scores students_id_seq uuid_source].
  rewrite app_nil_r. repeat split; assumption.
Qed.

Lemma skipn_tl {A : Type} (n : nat) (l : list A) : skipn n (tl l) = skipn (S n) l.
Proof. destruct l; [destruct n|]; reflexivity. Qed.

Lemma insert_students_loop_inserts (n : nat) :
  forall (w : pg_world) (l : list student),
  connection w = Open ->
  quiet n w = true ->
  students (database_of w) = Some l ->
  (forall s, In s l -> st_id s < students_id_seq (database_of w)) ->
  -2147483648 <= students_id_seq (database_of w) ->
  students_id_seq (database_of w) + Z.of_nat n <= 2147483648 ->
  exists new,
    fst (for_range n insert_students_row w) = Ret tt
    /\ connection (snd (for_range n insert_students_row w)) = Open
    /\ stdout (snd (for_range n insert_students_row w)) = stdout w
    /\ faults (backend (snd (for_range n insert_students_row w))) =
         skipn n (faults (backend w))
    /\ database_of (snd (for_range n insert_students_row w)) =
         Database (Some (l ++ new)) (scores (database_of w))
                  (students_id_seq (database_of w) + Z.of_nat n)
                  (uuid_source (database_of w))
    /\ map st_id new =
         map (fun i => students_id_seq (database_of w) + Z.of_nat i) (seq 0 n)
    /\ Forall (fun s => 1 <= st_group s <= 10) new.
Proof.
  induction n as [|n IH]; intros w l Hopen Hq Hl Hfresh Hlo Hhi.
  - exists []. cbn [for_range ret fst snd seq map]. rewrite app_nil_r, Z.add_0_r.
    repeat split; auto. unfold database_of in *.
    destruct (tables (backend w)); simpl in *. congruence.
  - unfold quiet in Hq. apply quiet_step in Hq. destruct Hq as [Hhd Hq].
    destruct (insert_students_row_inserts w l Hopen Hhd Hl Hfresh)
      as (name & d & g & Hg & Hret & Hopen1 & Hout1 & Hfaults1 & Hdb1).
    { apply int4_bounds. lia. }
    cbn [for_range]. unfold bind.
    destruct (insert_students_row w) as [o w1]. cbn [fst snd] in *. subst o.
    destruct (IH w1 (l ++ [Student (students_id_seq (database_of w)) name d g]))
      as (new & Hret2 & Hopen2 & Hout2 & Hfaults2 & Hdb2 & Hids & Hgroups).
    + assumption.
    + unfold quiet. rewrite Hfaults1. assumption.
    + rewrite Hdb1. reflexivity.
    + rewrite Hdb1. cbn [students_id_seq]. intros s Hs.
      apply in_app_or in Hs. destruct Hs as [Hs | [<- | []]].
      * specialize (Hfresh s Hs). lia.
      * simpl. lia.
    + rewrite Hdb1. cbn [students_id_seq]. lia.
    + rewrite Hdb1. cbn [students_id_seq]. lia.
    + exists (Student (students_id_seq (database_of w)) name d g :: new).
      rewrite Hdb1 in Hdb2, Hids. cbn [students_id_seq scores uuid_source] in Hdb2, Hids.
      repeat split; try assumption.
      * congruence.
      * rewrite Hfaults2, Hfaults1. apply skipn_tl.
      * rewrite Hdb2, <- app_assoc. f_equal. lia.
      * cbn [map seq]. rewrite Z.add_0_r. f_equal.
        rewrite Hids, <- seq_shift, map_map. apply map_ext. intros i. lia.
      * constructor; assumption.
Qed.

Lemma insert_students_fills (n : Z) (w : pg_world) (l : list student) :
  connection w = Open ->
  quiet (Z.to_nat n) w = true ->
  students (database_of w) = Some l ->
  (forall s, In s l -> st_id s < students_id_seq (database_of w)) ->
  -2147483648 <= students_id_seq (database_of w) ->
  students_id_seq (database_of w) + Z.max 0 n <= 2147483648 ->
  exists new,
    fst (insert_students n w) = Ret tt
    /\ connection (snd (insert_students n w)) = Open
    /\ faults (backend (snd (insert_students n w))) =
         skipn (Z.to_nat n) (faults (backend w))
    /\ stdout (snd (insert_students n w)) =
         stdout w ++ ["Students table filled successfully!"]
    /\ database_of (snd (insert_students n w)) =
         Database (Some (l ++ new)) (scores (database_of w))
                  (students_id_seq (database_of w) + Z.max 0 n)
                  (uuid_source (database_of w))
    /\ map st_id new =
         map (fun i => students_id_seq (database_of w) + Z.of_nat i)
             (seq 0 (Z.to_nat n))
    /\ Forall (fun s => 1 <= st_group s <= 10) new.
Proof.
  intros Hopen Hq Hl Hfresh Hlo Hhi.
  assert (Hn : Z.of_nat (Z.to_nat n) = Z.max 0 n) by lia.
  destruct (insert_students_loop_inserts (Z.to_nat n) w l Hopen Hq Hl Hfresh Hlo)
    as (new & Hret & Hopen1 & Hout & Hfaults & Hdb & Hids & Hgroups); [lia|].
  exists new. unfold insert_students, bind.
  destruct (for_range (Z.to_nat n) insert_students_row w) as [o w1].
  cbn [fst snd] in *. subst o. unfold print, database_of in *.
  cbn [fst snd backend set_stdout stdout connection].
  rewrite Hdb, Hout, Hn. repeat split; assumption.
Qed.

(** X11. With an open connection, the table of students there, its next
    identifier above those in use and within INTEGER for [n] more, and
    none of the [n] inserts failed on its way, [insert_students n] returns
    after its one line, having added [n] students: their identifiers are
    the next [n] values of the sequence, their groups are between 1 and 10,
    and the students and scores there before are as they were. *)
Theorem insert_students_adds_n_students (n : Z) (w : pg_world) (l : list student) :
  connection w = Open ->
  quiet (Z.to_nat n) w = true ->
  students (database_of w) = Some l ->
  (forall s, In s l -> st_id s < students_id_seq (database_of w)) ->
  -2147483648 <= students_id_seq (database_of w) ->
  students_id_seq (database_of w) + Z.max 0 n <= 2147483648 ->
  let w' := snd (insert_students n w) in
  exists new,
    fst (insert_students n w) = Ret tt
    /\ stdout w' = stdout w ++ ["Students table filled successfully!"]
    /\ students (database_of w') = Some (l ++ new)
    /\ length new = Z.to_nat n
    /\ map st_id new =
         map (fun i => students_id_seq (database_of w) + Z.of_nat i)
             (seq 0 (Z.to_nat n))
    /\ Forall (fun s => 1 <= st_group s <= 10) new
    /\ scores (database_of w') = scores (database_of w)
    /\ students_id_seq (database_of w') = students_id_seq (database_of w) + Z.max 0 n.
Proof.
  intros Hopen Hq Hl Hfresh Hlo Hhi w'. subst w'.
  destruct (insert_students_fills n w l Hopen Hq Hl Hfresh Hlo Hhi)
    as (new & Hret & _ & _ & Hout & Hdb & Hids & Hgroups).
  exists new. rewrite Hdb. cbn [students scores students_id_seq].
  repeat split; try assumption.
  rewrite <- (length_map st_id), Hids, length_map, length_seq. reflexivity.
Qed.

Lemma insert_students_adds_n_students_witness :
  let w := connected db_school [] in
  exists new,
    students (database_of (snd (insert_students 10 w))) =
      Some ([Student 1 "Ann" 730000 8; Student 2 "Bob" 730100 2;
             Student 3 "Tracy" 730200 8] ++ new)
    /\ map st_id new = [4; 5; 6; 7; 8; 9; 10; 11; 12; 13].
Proof.
  intros w.
  destruct (insert_students_adds_n_students 10 w
              [Student 1 "Ann" 730000 8; Student 2 "Bob" 730100 2;
               Student 3 "Tracy" 730200 8])
    as (new & _ & _ & Hst & _ & Hids & _); try reflexivity.
  - simpl. intros s [<- | [<- | [<- | []]]]; reflexivity.
  - simpl. lia.
  - simpl. lia.
  - exists new. split; assumption.
Defined.

(** One turn of the loop of [insert_scores], when nothing fails. *)
Lemma insert_scores_row_inserts (w : pg_world) (sid : Z) (rest : row) (sc : list score) :
  connection w = Open ->
  hd None (faults (backend w)) = None ->
  scores (database_of w) = Some sc ->
  (forall s, In s sc -> sc_id s < uuid_source (database_of w)) ->
  int4 sid = true ->
  existsb (fun s => st_id s =? sid) (students_of (database_of w)) = true ->
  exists p,
    0 <= p <= 100
    /\ fst (insert_scores_row (VInt sid :: rest) w) = Ret tt
    /\ connection (snd (insert_scores_row (VInt sid :: rest) w)) = Open
    /\ stdout (snd (insert_scores_row (VInt sid :: rest) w)) = stdout w
    /\ faults (backend (snd (insert_scores_row (VInt sid :: rest) w))) =
         tl (faults (backend w))
    /\ database_of (snd (insert_scores_row (VInt sid :: rest) w)) =
         Database (students (database_of w))
                  (Some (sc ++ [Score (uuid_source (database_of w)) sid p]))
                  (students_id_seq (database_of w))
                  (uuid_source (database_of w) + 1).
Proof.
  intros Hopen Hq Hsc Hfresh Hsid Hexists.
  assert (Heq : insert_scores_row (VInt sid :: rest) w =
                execute_query pg_run INSERT_INTO_scores "insert scores"
                  (Some (score_tuple (VInt sid) w)) true false
                  (set_faker_seed (faker_next (faker_seed w)) w))
    by reflexivity.
  rewrite Heq. clear Heq. rewrite execute_query_open by assumption.
  cbn [backend set_faker_seed]. rewrite pg_run_reaches by assumption.
  unfold database_of in *.
  set (s1 := faker_next (faker_seed w)).
  pose proof (faker_random_int_bounds 0 100 s1 ltac:(lia)) as Hp.
  exists (0 + s1 mod (100 - 0 + 1)).
  split; [exact Hp|].
  change (pg_statement INSERT_INTO_scores (Some (score_tuple (VInt sid) w))
            (tables (backend w)))
    with (insert_score sid (0 + s1 mod (100 - 0 + 1)) (tables (backend w))).
  unfold insert_score. rewrite Hsc.
  assert (Hp4 : int4 (0 + s1 mod (100 - 0 + 1)) = true) by (apply int4_bounds; lia).
  rewrite Hp4, Hsid. cbn [andb negb].
  rewrite (existsb_fresh sc_id sc _ Hfresh), Hexists.
  cbn [fst snd]. unfold printed, sent, set_scores.
  cbn [stdout connection backend faults tables set_stdout set_faker_seed
       students scores students_id_seq uuid_source].
  rewrite app_nil_r. repeat split; assumption.
Qed.

Lemma insert_scores_loop_inserts (l : list student) :
  forall (rows : list row) (w : pg_world) (sc : list score),
  rows = map (fun s => [VInt (st_id s)]) l ->
  connection w = Open ->
  quiet (length l) w = true ->
  scores (database_of w) = Some sc ->
  (forall s, In s sc -> sc_id s < uuid_source (database_of w)) ->
  (forall st, In st l -> int4 (st_id st) = true /\ In st (students_of (database_of w))) ->
  exists new,
    fst (for_each rows insert_scores_row w) = Ret tt
    /\ connection (snd (for_each rows insert_scores_row w)) = Open
    /\ stdout (snd (for_each rows insert_scores_row w)) = stdout w
    /\ students (database_of (snd (for_each rows insert_scores_row w))) =
         students (database_of w)
    /\ scores (database_of (snd (for_each rows insert_scores_row w))) =
         Some (sc ++ new)
    /\ map sc_student_id new = map st_id l
    /\ Forall (fun s => 0 <= sc_score s <= 100) new.
Proof.
  induction l as [|st l IH]; intros rows w sc -> Hopen Hq Hsc Hfresh Hl.
  - exists []. cbn [map for_each ret fst snd]. rewrite app_nil_r. repeat split; auto.
  - unfold quiet in Hq. cbn [length] in Hq. apply quiet_step in Hq.
    destruct Hq as [Hhd Hq].
    destruct (Hl st (or_introl eq_refl)) as [Hid Hin].
    destruct (insert_scores_row_inserts w (st_id st) [] sc Hopen Hhd Hsc Hfresh Hid)
      as (p & Hp & Hret & Hopen1 & Hout1 & Hfaults1 & Hdb1).
    { apply existsb_exists. exists st. split; [assumption | apply Z.eqb_refl]. }
    cbn [map for_each]. unfold bind.
    destruct (insert_scores_row [VInt (st_id st)] w) as [o w1].
    cbn [fst snd] in *. subst o.
    destruct (IH (map (fun s => [VInt (st_id s)]) l) w1
                (sc ++ [Score (uuid_source (database_of w)) (st_id st) p]) eq_refl)
      as (new & Hret2 & Hopen2 & Hout2 & Hst2 & Hsc2 & Hids & Hscores).
    + assumption.
    + unfold quiet. rewrite Hfaults1. assumption.
    + rewrite Hdb1. reflexivity.
    + rewrite Hdb1. cbn [uuid_source]. intros s Hs.
      apply in_app_or in Hs. destruct Hs as [Hs | [<- | []]].
      * specialize (Hfresh s Hs). lia.
      * simpl. lia.
    + intros st0 Hst0. destruct (Hl st0 (or_intror Hst0)) as [H1 H2].
      split; [assumption|]. unfold students_of in *. rewrite Hdb1. exact H2.
    + exists (Score (uuid_source (database_of w)) (st_id st) p :: new).
      rewrite Hdb1 in Hst2. cbn [students] in Hst2.
      repeat split; try assumption; try congruence.
      * rewrite Hsc2, <- app_assoc. reflexivity.
      * cbn [map sc_student_id]. f_equal. assumption.
      * constructor; assumption.
Qed.

Lemma insert_scores_fills
    (w : pg_world) (l : list student) (sc : list score) :
  connection w = Open ->
  quiet (S (length l)) w = true ->
  students (database_of w) = Some l ->
  scores (database_of w) = Some sc ->
  (forall st, In st l -> int4 (st_id st) = true) ->
  (forall s, In s sc -> sc_id s < uuid_source (database_of w)) ->
  let w' := snd (insert_scores w) in
  exists new,
    fst (insert_scores w) = Ret tt
    /\ stdout w' = stdout w ++ [success_message "select students' identifiers";
                                "Scores table filled successfully!"]
    /\ students (database_of w') = Some l
    /\ scores (database_of w') = Some (sc ++ new)
    /\ map sc_student_id new = map st_id l
    /\ Forall (fun s => 0 <= sc_score s <= 100) new.
Proof.
  intros Hopen Hq Hl Hsc Hids Hfresh w'. subst w'.
  unfold quiet in Hq. apply quiet_step in Hq. destruct Hq as [Hhd Hq].
  set (rows := map (fun s => [VInt (st_id s)]) l : list row).
  set (s := Server (tables (backend w)) (tl (faults (backend w)))).
  assert (Hrun : pg_run SELECT_id_FROM_students None (backend w) = (Ret (selected rows), s)).
  { rewrite pg_run_reaches by assumption. unfold database_of in Hl.
    cbn [pg_statement]. unfold select_ids. rewrite Hl. reflexivity. }
  rewrite (insert_scores_loop rows s w Hopen Hrun).
  destruct (insert_scores_loop_inserts l rows (identifiers_fetched rows s w) sc eq_refl)
    as (new & Hret & Hopen1 & Hout & Hst & Hsc1 & Hsids & Hscores);
    try assumption; try reflexivity.
  - intros st Hst. split; [auto|]. unfold students_of, database_of in *.
    cbn. rewrite Hl. assumption.
  - exists new. unfold bind.
    destruct (for_each rows insert_scores_row (identifiers_fetched rows s w)) as [o w1].
    cbn [fst snd] in *. subst o. unfold print, database_of in *.
    cbn [fst snd backend set_stdout stdout].
    rewrite Hout, Hst, Hsc1. unfold identifiers_fetched, printed, sent.
    cbn [fst snd backend set_stdout stdout tables students]. rewrite <- app_assoc.
    repeat split; assumption.
Qed.

(** X12. With an open connection, both tables there, the identifiers of
    the students within INTEGER, the next token above those in use, and
    neither the SELECT nor an insert failed on its way, [insert_scores]
    returns after its two lines, having added one score for each student,
    in the order of the table, each between 0 and 100; the students and
    the scores there before are as they were. *)
Theorem insert_scores_adds_one_score_per_student
    (w : pg_world) (l : list student) (sc : list score) :
  connection w = Open ->
  quiet (S (length l)) w = true ->
  students (database_of w) = Some l ->
  scores (database_of w) = Some sc ->
  (forall st, In st l -> int4 (st_id st) = true) ->
  (forall s, In s sc -> sc_id s < uuid_source (database_of w)) ->
  let w' := snd (insert_scores w) in
  exists new,
    fst (insert_scores w) = Ret tt
    /\ stdout w' = stdout w ++ [success_message "select students' identifiers";
                                "Scores table filled successfully!"]
    /\ students (database_of w') = Some l
    /\ scores (database_of w') = Some (sc ++ new)
    /\ map sc_student_id new = map st_id l
    /\ Forall (fun s => 0 <= sc_score s <= 100) new.
Proof.
  exact (insert_scores_fills w l sc).
Qed.

Lemma insert_scores_adds_one_score_per_student_witness :
  let w := connected db_school [] in
  exists new,
    scores (database_of (snd (insert_scores w))) =
      Some ([Score 1 1 40; Score 2 3 95] ++ new)
    /\ map sc_student_id new = [1; 2; 3].
Proof.
  intros w.
  destruct (insert_scores_adds_one_score_per_student w
              [Student 1 "Ann" 730000 8; Student 2 "Bob" 730100 2;
               Student 3 "Tracy" 730200 8]
              [Score 1 1 40; Score 2 3 95])
    as (new & _ & _ & _ & Hsc & Hids & _); try reflexivity.
  - simpl. intros s [<- | [<- | [<- | []]]]; reflexivity.
  - simpl. intros s [<- | [<- | []]]; reflexivity.
  - exists new. split; assumption.
Defined.

(** ** What the sorted fetch returns *)

Lemma value_leb_total (a b : value) :
  value_leb a b = false -> value_leb b a = true.
Proof.
  destruct a, b; simpl; try discriminate; try reflexivity;
    try (rewrite Z.leb_gt, Z.leb_le; lia).
  intros H. destruct (String.leb_total s s0) as [H1|H1]; congruence.
Qed.

Lemma insert_sorted_in (i : nat) (r x : row) (l : list row) :
  In x (insert_sorted i r l) <-> x = r \/ In x l.
Proof.
  induction l as [|y l IH]; simpl.
  - intuition.
  - destruct (value_leb _ _); simpl; rewrite ?IH; intuition.
Qed.

Lemma insert_sorted_sorted (i : nat) (r : row) (l : list row) :
  sorted_on i l -> sorted_on i (insert_sorted i r l).
Proof.
  unfold sorted_on. induction l as [|y l IH]; simpl; intros H.
  - repeat constructor.
  - destruct (value_leb (nth i r VNull) (nth i y VNull)) eqn:E.
    + constructor; [assumption | constructor; assumption].
    + inversion H as [|? ? Hl Hhd]. subst. constructor; [auto|].
      apply value_leb_total in E.
      destruct l as [|z l]; simpl.
      * constructor. assumption.
      * destruct (value_leb (nth i r VNull) (nth i z VNull)); constructor;
          [assumption | inversion Hhd; assumption].
Qed.

Lemma order_by_sorted (i : nat) (l : list row) : sorted_on i (order_by i l).
Proof.
  unfold order_by. induction l as [|r l IH]; simpl.
  - constructor.
  - apply insert_sorted_sorted. assumption.
Qed.

Lemma insert_sorted_permutation (i : nat) (r : row) (l : list row) :
  Permutation (insert_sorted i r l) (r :: l).
Proof.
  induction l as [|y l IH]; simpl; [reflexivity|].
  destruct (value_leb _ _); [reflexivity|].
  rewrite IH. apply perm_swap.
Qed.

Lemma order_by_permutation (i : nat) (l : list row) : Permutation (order_by i l) l.
Proof.
  unfold order_by. induction l as [|r l IH]; simpl; [reflexivity|].
  rewrite insert_sorted_permutation. constructor. assumption.
Qed.

Lemma firstn_sorted (i n : nat) (l : list row) :
  sorted_on i l -> sorted_on i (firstn n l).
Proof.
  unfold sorted_on. revert n. induction l as [|x l IH]; intros [|n] H;
    cbn [firstn]; try constructor.
  - inversion H; auto.
  - inversion H as [|? ? Hl Hhd]. subst.
    destruct l as [|y l]; destruct n; cbn [firstn]; constructor.
    inversion Hhd. assumption.
Qed.

Lemma firstn_in {A : Type} (n : nat) (l : list A) (x : A) :
  In x (firstn n l) -> In x l.
Proof.
  intros H. rewrite <- (firstn_skipn n l). apply in_or_app. auto.
Qed.

Lemma fetch_sorted_data_returns (table column : string) (w : pg_world) :
  connection w = Open ->
  fst (fetch_sorted_data table column w) =
  match fst (pg_run (SELECT_ORDER_BY table column) (Some [VInt ROW_LIMIT]) (backend w)) with
  | Ret r =>
      match res_rows r with
      | Some rows => Ret (Some rows)
      | None => Raise no_results
      end
  | Raise e => if db_error e then Ret None else Raise e
  end.
Proof.
  intros Hopen.
  exact (querier_returns pg_run (SELECT_ORDER_BY table column)
           (fstring ["fetch data for "; table; " table sorted by "; column])
           (Some [VInt ROW_LIMIT])
           (fun _ => ret tt) w Hopen (fun _ _ => eq_refl)).
Qed.

(** X13. With an open connection and the statement not failed on its
    way, [fetch_sorted_data] on a table and a column that are there returns
    the first 30 rows of the table in ascending order of the column: at
    most 30 rows, each at most the next on the column, all of them rows of
    the table, and a rearrangement of the whole table when it has no more
    than 30 rows. *)
Theorem fetch_sorted_data_sorted_and_capped
    (table column : string) (w : pg_world)
    (all : list row) (columns : list string) (i : nat) :
  connection w = Open ->
  hd None (faults (backend w)) = None ->
  table_rows (database_of w) table = Some (all, columns) ->
  index_of column columns = Some i ->
  exists rows,
    fst (fetch_sorted_data table column w) = Ret (Some rows)
    /\ length rows = Nat.min 30 (length all)
    /\ sorted_on i rows
    /\ (forall r, In r rows -> In r all)
    /\ ((length all <= 30)%nat -> Permutation rows all).
Proof.
  intros Hopen Hq Ht Hc.
  exists (firstn 30 (order_by i all)).
  rewrite fetch_sorted_data_returns by assumption.
  rewrite pg_run_reaches by assumption. unfold database_of in Ht.
  cbn [pg_statement fst]. unfold select_order_by. rewrite Ht, Hc.
  change (ROW_LIMIT <? 0) with false. change (Z.to_nat ROW_LIMIT) with 30%nat.
  cbn [fst selected res_rows].
  split; [reflexivity|]. split; [|split; [|split]].
  - rewrite length_firstn. rewrite (Permutation_length (order_by_permutation i all)).
    reflexivity.
  - apply firstn_sorted, order_by_sorted.
  - intros r Hr. apply firstn_in in Hr.
    exact (Permutation_in r (order_by_permutation i all) Hr).
  - intros Hlen. rewrite firstn_all2.
    + apply order_by_permutation.
    + rewrite (Permutation_length (order_by_permutation i all)). assumption.
Qed.

Lemma fetch_sorted_data_sorted_and_capped_witness :
  let w := connected db_school [] in
  exists rows,
    fst (fetch_sorted_data "students" "name" w) = Ret (Some rows)
    /\ length rows = 3%nat
    /\ sorted_on 1 rows.
Proof.
  intros w.
  destruct (fetch_sorted_data_sorted_and_capped "students" "name" w
              (map student_row [Student 1 "Ann" 730000 8; Student 2 "Bob" 730100 2;
                                Student 3 "Tracy" 730200 8])
              ["id"; "name"; "birth_date"; "group"] 1
              eq_refl eq_refl eq_refl eq_refl)
    as (rows & Hret & Hlen & Hsorted & _).
  exists rows. repeat split; assumption.
Defined.



(** ** What the search by name finds *)

Lemma list_ascii_of_append (a b : string) :
  list_ascii_of_string (String.append a b) =
  list_ascii_of_string a ++ list_ascii_of_string b.
Proof. induction a; simpl; congruence. Qed.

Lemma ilike_percent (p s : list ascii) :
  ilike (ascii_of_nat 37 :: p) s = true <->
  exists a b, s = a ++ b /\ ilike p b = true.
Proof.
  change (ilike (ascii_of_nat 37 :: p))
    with (fix any (s : list ascii) : bool :=
            ilike p s || match s with [] => false | _ :: s' => any s' end).
  induction s as [|c s IH].
  - rewrite orb_false_r. split.
    + intros H. exists [], []. auto.
    + intros (a & b & Hs & H). destruct a, b; try discriminate. assumption.
  - rewrite orb_true_iff, IH. split.
    + intros [H | (a & b & -> & H)].
      * exists [], (c :: s). auto.
      * exists (c :: a), b. auto.
    + intros (a & b & Hs & H). destruct a as [|x a]; simpl in Hs.
      * left. subst b. assumption.
      * right. inversion Hs. eauto.
Qed.

Lemma ilike_plain_cons (c : ascii) (p s : list ascii) :
  plain c = true ->
  ilike (c :: p) s =
  match s with
  | [] => false
  | x :: s' => Ascii.eqb (lower c) (lower x) && ilike p s'
  end.
Proof.
  unfold plain. rewrite negb_true_iff, !orb_false_iff. intros [[H1 H2] H3].
  cbn [ilike]. rewrite H1, H2, H3. reflexivity.
Qed.

Lemma ilike_plain (p q s : list ascii) :
  forallb plain p = true ->
  ilike (p ++ q) s = true <->
  exists s1 s2, s = s1 ++ s2 /\ map lower s1 = map lower p /\ ilike q s2 = true.
Proof.
  revert s. induction p as [|c p IH]; intros s Hp.
  - simpl. split.
    + intros H. exists [], s. auto.
    + intros (s1 & s2 & -> & Hs1 & H). destruct s1; [assumption | discriminate].
  - cbn [forallb] in Hp. apply andb_true_iff in Hp. destruct Hp as [Hc Hp].
    cbn [app]. rewrite ilike_plain_cons by assumption.
    destruct s as [|x s].
    + split; [discriminate|].
      intros (s1 & s2 & Hs & Hs1 & _). destruct s1; discriminate.
    + rewrite andb_true_iff, (IH s Hp), Ascii.eqb_eq. split.
      * intros (Hx & s1 & s2 & -> & Hs1 & H).
        exists (x :: s1), s2. simpl. rewrite Hx, Hs1. auto.
      * intros (s1 & s2 & Hs & Hs1 & H). destruct s1 as [|y s1]; [discriminate|].
        simpl in Hs, Hs1. inversion Hs. inversion Hs1.
        split; [congruence|]. exists s1, s2. repeat split; congruence.
Qed.

Lemma ilike_anything (s : list ascii) : ilike [ascii_of_nat 37] s = true.
Proof. apply ilike_percent. exists s, []. rewrite app_nil_r. auto. Qed.

(** The pattern of [search_student_by_name], for a partial name without
    wildcards: the names in which it occurs. *)
Lemma name_ilike_occurs (partial_name name : string) :
  forallb plain (list_ascii_of_string partial_name) = true ->
  name_ilike (fstring ["%"; partial_name; "%"]) name = true <->
  occurs_ignoring_case partial_name name.
Proof.
  intros Hp. unfold name_ilike, occurs_ignoring_case.
  assert (Hpat : list_ascii_of_string (fstring ["%"; partial_name; "%"]) =
                 ascii_of_nat 37 :: list_ascii_of_string partial_name ++ [ascii_of_nat 37]).
  { unfold fstring. cbn [String.concat]. rewrite !list_ascii_of_append. reflexivity. }
  rewrite Hpat, ilike_percent. split.
  - intros (a & b & Hs & H). apply ilike_plain in H; [|assumption].
    destruct H as (s1 & s2 & -> & Hs1 & _). eauto.
  - intros (before & mid & after & Hs & Hmid).
    exists before, (mid ++ after). split; [assumption|].
    apply ilike_plain; [assumption|]. exists mid, after.
    split; [reflexivity|]. split; [assumption | apply ilike_anything].
Qed.

(** X15. With an open connection, the table of students there and the
    statement not failed on its way, where the names of the students and
    the partial name are ASCII text, [search_student_by_name], for a
    partial name without [%], [_] and backslash, returns the rows of the
    students in whose name the partial name occurs, whatever the case of
    the letters: all of them, whatever their number, in the order in which
    the table gives them. *)
Theorem search_student_by_name_finds_occurrences
    (partial_name : string) (w : pg_world) (l : list student) :
  connection w = Open ->
  hd None (faults (backend w)) = None ->
  students (database_of w) = Some l ->
  forallb (fun st => is_ascii (st_name st)) l = true ->
  is_ascii partial_name = true ->
  forallb plain (list_ascii_of_string partial_name) = true ->
  exists found,
    fst (search_student_by_name partial_name w) = Ret (Some (map student_row found))
    /\ (forall st, In st found <->
                   In st l /\ occurs_ignoring_case partial_name (st_name st))
    /\ (exists keep, found = filter keep l).
Proof.
  intros Hopen Hq Hl _ _ Hp.
  exists (filter (fun s => name_ilike (fstring ["%"; partial_name; "%"]) (st_name s)) l).
  split; [|split].
  - assert (Hret := querier_returns pg_run SELECT_FROM_students_WHERE_name_ILIKE
               (fstring ["search students by name "; partial_name])
               (Some [VText (fstring ["%"; partial_name; "%"])])
               (fun _ => ret tt) w Hopen (fun _ _ => eq_refl)).
    match type of Hret with fst ?l = _ =>
      change l with (search_student_by_name partial_name w) in Hret end.
    rewrite Hret. rewrite pg_run_reaches by assumption.
    unfold database_of in Hl. cbn [pg_statement]. unfold select_ilike. rewrite Hl.
    reflexivity.
  - intros st. rewrite filter_In, name_ilike_occurs by assumption. tauto.
  - eauto.
Qed.

Lemma search_student_by_name_finds_occurrences_witness :
  let w := connected db_school [] in
  exists found,
    fst (search_student_by_name "tracy" w) = Ret (Some (map student_row found))
    /\ (In (Student 3 "Tracy" 730200 8) found).
Proof.
  intros w.
  destruct (search_student_by_name_finds_occurrences "tracy" w
              [Student 1 "Ann" 730000 8; Student 2 "Bob" 730100 2;
               Student 3 "Tracy" 730200 8]
              eq_refl eq_refl eq_refl eq_refl eq_refl eq_refl)
    as (found & Hret & Hin & _).
  exists found. split; [assumption|]. apply Hin. split.
  - simpl. tauto.
  - exists [], (list_ascii_of_string "Tracy"), []. split; reflexivity.
Defined.

(** ** The cursors of the queriers *)

Section QuerierCursors.
Context {query params server : Type}.
Variable run : query -> option params -> server -> outcome result * server.

Lemma querier_closes q name ps (k : list row -> M query params server unit)
    (w : world query params server) res rows :
  connection w = Open ->
  fst (run q ps (backend w)) = Ret res ->
  res_rows res = Some rows ->
  (forall w1, fst (k rows w1) = Ret tt /\ cursors (snd (k rows w1)) = cursors w1) ->
  nth_error
    (cursors
       (snd (bind (execute_query_return_cursor run q name ps false true)
               (fun cursor =>
                  match cursor with
                  | Some cursor =>
                      bind (cursor_fetchall cursor) (fun result =>
                      bind (k result) (fun _ =>
                      bind (cursor_close cursor) (fun _ => ret (Some result))))
                  | None => ret None
                  end) w)))
    (length (cursors w))
  = Some (Cursor true (res_rowcount res) (Some [])).
Proof.
  intros Hopen Hrun Hrows Hk. rewrite fetchall_then_close by assumption.
  destruct (run q ps (backend w)) as [[r|e] s]; simpl in Hrun; [|discriminate].
  inversion Hrun. subst r. rewrite Hrows. unfold bind at 1.
  match goal with |- context [k rows ?w1] =>
    destruct (Hk w1) as [Hret Hcur]; destruct (k rows w1) as [o w2] eqn:E end.
  cbn [fst snd] in *. subst o. unfold bind, cursor_close, ret.
  rewrite Hcur. unfold printed, sent. cbn [cursors set_stdout].
  rewrite nth_error_snoc. cbn [fst snd cursors set_cursors].
  rewrite list_set_snoc. apply nth_error_snoc.
Qed.

End QuerierCursors.

(** X16. On an open connection, when their statement is answered,
    [fetch_group], [search_student_by_name] and [fetch_sorted_data] have
    closed the cursor they were given, emptied of its rows, by the time
    they return. *)
Theorem queriers_close_their_cursor
    (group : Z) (partial_name table column : string) (w : pg_world) :
  connection w = Open ->
  let c := length (cursors w) in
  (forall res,
     fst (pg_run SELECT_FROM_students_WHERE_group
                 (Some [VInt group; VInt ROW_LIMIT]) (backend w)) = Ret res ->
     nth_error (cursors (snd (fetch_group group w))) c
     = Some (Cursor true (res_rowcount res) (Some [])))
  /\ (forall res,
        fst (pg_run SELECT_FROM_students_WHERE_name_ILIKE
                    (Some [VText (fstring ["%"; partial_name; "%"])]) (backend w))
          = Ret res ->
        nth_error (cursors (snd (search_student_by_name partial_name w))) c
        = Some (Cursor true (res_rowcount res) (Some [])))
  /\ (forall res,
        fst (pg_run (SELECT_ORDER_BY table column) (Some [VInt ROW_LIMIT]) (backend w))
          = Ret res ->
        nth_error (cursors (snd (fetch_sorted_data table column w))) c
        = Some (Cursor true (res_rowcount res) (Some []))).
Proof.
  intros Hopen c. subst c. split; [|split]; intros res Hrun.
  - destruct (select_answers_rows _ _ _ _ (or_introl eq_refl) Hrun) as [rows ->].
    exact (querier_closes pg_run SELECT_FROM_students_WHERE_group "fetch group"
             (Some [VInt group; VInt ROW_LIMIT])
             (fun result => match result with
                            | [] => ret tt
                            | _ :: _ => print (fetched_message group)
                            end) w (selected rows) rows Hopen Hrun eq_refl
             (fun w1 => match rows with
                        | [] => conj eq_refl eq_refl
                        | _ :: _ => conj eq_refl eq_refl
                        end)).
  - destruct (select_answers_rows _ _ _ _ (or_intror (or_introl eq_refl)) Hrun)
      as [rows ->].
    exact (querier_closes pg_run SELECT_FROM_students_WHERE_name_ILIKE
             (fstring ["search students by name "; partial_name])
             (Some [VText (fstring ["%"; partial_name; "%"])])
             (fun _ => ret tt) w (selected rows) rows Hopen Hrun eq_refl
             (fun w1 => conj eq_refl eq_refl)).
  - destruct (select_answers_rows _ _ _ _
                (or_intror (or_intror (ex_intro _ table (ex_intro _ column eq_refl))))
                Hrun) as [rows ->].
    exact (querier_closes pg_run (SELECT_ORDER_BY table column)
             (fstring ["fetch data for "; table; " table sorted by "; column])
             (Some [VInt ROW_LIMIT])
             (fun _ => ret tt) w (selected rows) rows Hopen Hrun eq_refl
             (fun w1 => conj eq_refl eq_refl)).
Qed.

Lemma queriers_close_their_cursor_witness :
  let w := connected db_school [] in
  connection w = Open
  /\ nth_error (cursors (snd (fetch_group 8 w))) 0 = Some (Cursor true 2 (Some [])).
Proof.
  intros w. split; [reflexivity|].
  destruct (queriers_close_their_cursor 8 "tracy" "scores" "score" w eq_refl)
    as (Hg & _ & _).
  apply (Hg (selected [[VInt 1; VText "Ann"; VDate 730000];
                       [VInt 3; VText "Tracy"; VDate 730200]])).
  reflexivity.
Defined.

(** *** Runs of the mutators *)

Lemma delete_group_removes_group_and_its_scores_witness :
  let w := connected db_school [] in
  connection w = Open
  /\ group_members (database_of (snd (delete_group 8 w))) 8 = []
  /\ students_id_seq (database_of (snd (delete_group 8 w))) = 4.
Proof.
  intros w.
  destruct (delete_group_removes_group_and_its_scores 8 w (changed 2) eq_refl eq_refl)
    as (_ & Hnone & _ & Hseq).
  split; [reflexivity|]. split; assumption.
Defined.

Lemma update_group_moves_the_student_witness :
  let w := connected db_school [] in
  connection w = Open
  /\ Permutation (students_of (database_of (snd (update_group 2 10 w))))
                 [Student 1 "Ann" 730000 8; Student 2 "Bob" 730100 10;
                  Student 3 "Tracy" 730200 8]
  /\ scores (database_of (snd (update_group 2 10 w))) = scores db_school.
Proof.
  intros w.
  destruct (update_group_moves_the_student 2 10 w (changed 1) eq_refl eq_refl)
    as (Hperm & _ & _ & Hsc).
  split; [reflexivity|]. split; [exact Hperm | exact Hsc].
Defined.

Lemma update_score_sets_every_score_of_the_student_witness :
  let w := connected db_school [] in
  connection w = Open
  /\ Permutation (scores_of (database_of (snd (update_score 3 100 w))))
                 [Score 1 1 40; Score 2 3 100]
  /\ students (database_of (snd (update_score 3 100 w))) = students db_school.
Proof.
  intros w.
  destruct (update_score_sets_every_score_of_the_student 3 100 w (changed 1)
              eq_refl eq_refl) as (Hperm & _ & _ & Hst).
  split; [reflexivity|]. split; [exact Hperm | exact Hst].
Defined.

(** ** The tables, created and filled *)

Lemma quiet_split (a b : nat) (fs : list (option exn)) :
  forallb is_None (firstn (a + b) fs) = true ->
  forallb is_None (firstn a fs) = true
  /\ forallb is_None (firstn b (skipn a fs)) = true.
Proof.
  revert fs. induction a as [|a IH]; intros fs H.
  - split; [reflexivity | exact H].
  - change (S a + b)%nat with (S (a + b)) in H. apply quiet_step in H.
    destruct H as [Hhd H]. destruct (IH (tl fs) H) as [H1 H2].
    rewrite <- skipn_tl. split; [|assumption].
    destruct fs as [|[e|] fs]; cbn [firstn forallb is_None andb hd tl] in *;
      try discriminate; [destruct a; reflexivity | assumption].
Qed.

Lemma create_tables_creates (w : pg_world) :
  connection w = Open ->
  quiet 2 w = true ->
  fst (create_tables w) = Ret tt
  /\ connection (snd (create_tables w)) = Open
  /\ faults (backend (snd (create_tables w))) = skipn 2 (faults (backend w))
  /\ stdout (snd (create_tables w)) =
       stdout w ++ [success_message "create students table";
                    success_message "create scores table"]
  /\ students (database_of (snd (create_tables w))) =
       Some (students_of (database_of w))
  /\ scores (database_of (snd (create_tables w))) =
       Some (scores_of (database_of w))
  /\ students_id_seq (database_of (snd (create_tables w))) =
       match students (database_of w) with
       | Some _ => students_id_seq (database_of w)
       | None => 1
       end
  /\ uuid_source (database_of (snd (create_tables w))) = uuid_source (database_of w).
Proof.
  unfold quiet, database_of, students_of, scores_of.
  open_world w. intros -> Hq.
  unfold create_tables, create_students_table, create_scores_table, bind.
  destruct fl as [|[e0|] [|[e1|] fl]]; try discriminate Hq;
  destruct db as [[st|] [sc|] seq uu];
  repeat (rewrite execute_query_open by reflexivity; simpl);
  rewrite <- ?app_assoc; repeat split.
Qed.

(** X17. On an open connection, with neither statement failed on its
    way, creating the two tables returns and leaves both tables there with
    the rows they had: a table that was there keeps its rows and its
    sequence, a table that was not is empty. *)
Theorem create_tables_keeps_rows (w : pg_world) :
  connection w = Open ->
  quiet 2 w = true ->
  let db := database_of w in
  let db' := database_of (snd (create_tables w)) in
  fst (create_tables w) = Ret tt
  /\ students db' = Some (students_of db)
  /\ scores db' = Some (scores_of db)
  /\ (students db <> None -> students_id_seq db' = students_id_seq db).
Proof.
  intros Hopen Hq db db'. subst db db'.
  destruct (create_tables_creates w Hopen Hq) as (H1 & _ & _ & _ & H2 & H3 & H4 & _).
  repeat split; try assumption.
  intros Hs. rewrite H4. destruct (students (database_of w)); congruence.
Qed.

Lemma create_tables_keeps_rows_witness :
  let w := connected db_school [] in
  connection w = Open
  /\ quiet 2 w = true
  /\ fst (create_tables w) = Ret tt
  /\ students (database_of (snd (create_tables w))) = students db_school.
Proof.
  intros w.
  destruct (create_tables_keeps_rows w eq_refl eq_refl) as (H1 & H2 & _).
  repeat split; assumption.
Defined.

(** X18. Creating the table of scores where there is no table of
    students fails: the statement refers to [students], the programming
    error is printed and, [raise_exc] being set, raised; no table is
    made. *)
Theorem create_scores_table_needs_students (w : pg_world) :
  connection w = Open ->
  hd None (faults (backend w)) = None ->
  students (database_of w) = None ->
  scores (database_of w) = None ->
  fst (create_scores_table w) = Raise (undefined_table "students")
  /\ stdout (snd (create_scores_table w)) =
       stdout w ++ [failure_message "create scores table" (undefined_table "students")]
  /\ database_of (snd (create_scores_table w)) = database_of w.
Proof.
  unfold database_of. intros Hopen Hq Hst Hsc.
  unfold create_scores_table. rewrite execute_query_open by assumption.
  rewrite pg_run_reaches by assumption. cbn [pg_statement]. unfold create_scores.
  rewrite Hst, Hsc. repeat split.
Qed.

Lemma create_scores_table_needs_students_witness :
  let w := connected db_empty [] in
  fst (create_scores_table w) = Raise (undefined_table "students")
  /\ database_of (snd (create_scores_table w)) = db_empty.
Proof.
  intros w.
  destruct (create_scores_table_needs_students w eq_refl eq_refl eq_refl eq_refl)
    as (H1 & _ & H3).
  split; assumption.
Defined.

Lemma populate_after_create (w : pg_world) :
  populate_tables w =
  match create_tables w with
  | (Ret _, w1) =>
      bind (insert_students 10) (fun _ => bind insert_scores (fun _ => ret true)) w1
  | (Raise e, w1) => (Raise e, w1)
  end.
Proof.
  unfold populate_tables, create_tables, bind.
  destruct (create_students_table w) as [[[]|e] w1]; [|reflexivity].
  destruct (create_scores_table w1) as [[[]|e] w2]; reflexivity.
Qed.

(** X19. On an open connection to a database without the two tables, with
    none of the 23 statements failed on its way, the first part of [main]
    returns with ten students, of identifiers 1 to 10 and groups between 1
    and 10, and ten scores between 0 and 100, one for each student in the
    order of the identifiers. *)
Theorem populating_a_new_database (w : pg_world) :
  connection w = Open ->
  quiet 23 w = true ->
  students (database_of w) = None ->
  scores (database_of w) = None ->
  let db' := database_of (snd (populate_tables w)) in
  exists sts scs,
    fst (populate_tables w) = Ret true
    /\ students db' = Some sts
    /\ scores db' = Some scs
    /\ map st_id sts = [1; 2; 3; 4; 5; 6; 7; 8; 9; 10]
    /\ map sc_student_id scs = map st_id sts
    /\ Forall (fun s => 1 <= st_group s <= 10) sts
    /\ Forall (fun s => 0 <= sc_score s <= 100) scs.
Proof.
  intros Hopen Hq Hst Hsc db'. subst db'.
  unfold quiet in Hq.
  apply (quiet_split 2 21) in Hq. destruct Hq as [Hq2 Hq].
  apply (quiet_split 10 11) in Hq. destruct Hq as [Hq10 Hq11].
  destruct (create_tables_creates w Hopen Hq2)
    as (Hret1 & Hopen1 & Hf1 & _ & Hst1 & Hsc1 & Hseq1 & _).
  rewrite populate_after_create.
  destruct (create_tables w) as [o w1]. cbn [fst snd] in *. subst o.
  unfold students_of, scores_of in *. rewrite Hst in Hst1, Hseq1. rewrite Hsc in Hsc1.
  destruct (insert_students_fills 10 w1 [] Hopen1)
    as (sts & Hret2 & Hopen2 & Hf2 & _ & Hdb2 & Hids & Hgroups).
  { unfold quiet. rewrite Hf1. exact Hq10. }
  { assumption. }
  { intros s []. }
  { rewrite Hseq1. lia. }
  { rewrite Hseq1. lia. }
  unfold bind.
  destruct (insert_students 10 w1) as [o w2]. cbn [fst snd] in *. subst o.
  rewrite Hseq1, Hsc1 in Hdb2. cbn [app] in Hdb2.
  assert (Hids' : map st_id sts = [1; 2; 3; 4; 5; 6; 7; 8; 9; 10])
    by (rewrite Hids, Hseq1; reflexivity).
  destruct (insert_scores_fills w2 sts [] Hopen2)
    as (scs & Hret3 & _ & Hst3 & Hsc3 & Hsids & Hscores).
  { unfold quiet. rewrite Hf2, Hf1.
    rewrite <- (length_map st_id), Hids'. exact Hq11. }
  { rewrite Hdb2. reflexivity. }
  { rewrite Hdb2. reflexivity. }
  { intros st Hin. apply int4_bounds.
    assert (In (st_id st) (map st_id sts)) by (apply in_map; assumption).
    rewrite Hids' in H. simpl in H. lia. }
  { intros s []. }
  exists sts, scs.
  destruct (insert_scores w2) as [o w3]. cbn [fst snd] in *. subst o.
  unfold ret. cbn [fst snd]. repeat split; first [assumption | reflexivity].
Qed.

Lemma populating_a_new_database_witness :
  let w := connected db_empty [] in
  exists sts scs,
    fst (populate_tables w) = Ret true
    /\ students (database_of (snd (populate_tables w))) = Some sts
    /\ scores (database_of (snd (populate_tables w))) = Some scs
    /\ map sc_student_id scs = [1; 2; 3; 4; 5; 6; 7; 8; 9; 10].
Proof.
  intros w.
  destruct (populating_a_new_database w eq_refl eq_refl eq_refl eq_refl)
    as (sts & scs & H1 & H2 & H3 & H4 & H5 & _).
  exists sts, scs. repeat split; try assumption. congruence.
Defined.
